(** * Web map services cookbook: the GIBS explorer and its URL templating

  A shallow embedding of the original logic of the two notebooks
  [notebooks/web_map_services.ipynb] and
  [notebooks/nasa_earthdata_gibs_explorer.ipynb]:

  - [formulate_url_template] / [get_url_template]: four chained
    [str.replace] calls that turn a concrete GetMap URL into a tile URL
    template;
  - [NasaEarthDataGibsWmsExplorer]: the product/layer catalog built in
    [__init__], [get_layer], [update_layers], [update_time],
    [get_url_template] and [update_web_map].

  Python [str] values are [string]s (sequences of bytes), Python [None] is
  [None] of an [option], dictionaries are [gmap]s, exceptions are values of
  [exn] carried in a sum.  What lives outside the repository (the WMS
  client, pandas, the Panel widgets) enters as a parameter of the section
  that uses it; the one exception, [date_range_steps], is modelled from the
  specification and says so.  [spec_fallback_days] is the specification's
  reading of the period fallback, kept beside the code's for comparison. *)

From Stdlib Require Import Ascii String ZArith Lia.
From stdpp Require Import gmap strings list fin_maps sorting.



(** ** Python string primitives *)

Module PyStr.

(** [c in s] for a single character [c]. *)
Fixpoint mem (c : ascii) (s : string) : bool :=
  match s with
  | EmptyString => false
  | String d s' => if decide (c = d) then true else mem c s'
  end.

(** [all(p(c) for c in s)]. *)
Fixpoint all_chars (p : ascii → bool) (s : string) : bool :=
  match s with
  | EmptyString => true
  | String c s' => p c && all_chars p s'
  end.

(** [s.startswith(p)]. *)
Fixpoint startswith (p s : string) : bool :=
  match p with
  | EmptyString => true
  | String a p' =>
      match s with
      | EmptyString => false
      | String b s' => if decide (a = b) then startswith p' s' else false
      end
  end.

(** Number of positions of [s] at which [p] occurs (occurrences may
    overlap).  [p in s] is [0 < occ p s]. *)
Fixpoint occ (p s : string) : nat :=
  (if startswith p s then 1 else 0) +
  match s with
  | EmptyString => 0
  | String _ s' => occ p s'
  end.

(** [p in s] for strings. *)
Definition contains (p s : string) : bool := bool_decide (0 < occ p s).

(** The scan of [str.replace] for a non-empty [old]: left to right, each
    match is replaced and the scan resumes after it ([skip] counts the
    characters of the current match that are still to be passed over). *)
Fixpoint replace_from (old new : string) (skip : nat) (s : string) : string :=
  match s with
  | EmptyString => EmptyString
  | String c s' =>
      match skip with
      | S k => replace_from old new k s'
      | O =>
          if startswith old s
          then new +:+ replace_from old new (String.length old - 1) s'
          else String c (replace_from old new 0 s')
      end
  end.

(** With an empty [old], Python inserts [new] before every character and
    at the end. *)
Fixpoint sprinkle (new s : string) : string :=
  match s with
  | EmptyString => EmptyString
  | String c s' => String c (new +:+ sprinkle new s')
  end.

(** [s.replace(old, new)]. *)
Definition replace (old new s : string) : string :=
  match old with
  | EmptyString => new +:+ sprinkle new s
  | String _ _ => replace_from old new 0 s
  end.

(** [s.lstrip(chars)]: drop leading characters that belong to [chars]. *)
Fixpoint lstrip (chars s : string) : string :=
  match s with
  | EmptyString => EmptyString
  | String c s' => if mem c chars then lstrip chars s' else s
  end.

(** [s.split(sep)] for a one-character separator: every separator cuts. *)
Fixpoint split (sep : ascii) (s : string) : list string :=
  match s with
  | EmptyString => [EmptyString]
  | String c s' =>
      if decide (c = sep) then EmptyString :: split sep s'
      else match split sep s' with
           | [] => [String c EmptyString]
           | w :: ws => String c w :: ws
           end
  end.

(** [s.split(sep, 1)] for a one-character separator: only the first
    separator cuts. *)
Fixpoint split1 (sep : ascii) (s : string) : list string :=
  match s with
  | EmptyString => [EmptyString]
  | String c s' =>
      if decide (c = sep) then [EmptyString; s']
      else match split1 sep s' with
           | [] => [String c EmptyString]
           | w :: ws => String c w :: ws
           end
  end.

(** Two non-empty strings that can never share a character position when
    both occur in a text: neither starts inside the other, and neither
    begins where the other begins. *)
Definition noverlap (q m : string) : bool :=
  match q, m with
  | String d q', String c m' =>
      negb (mem c q') && negb (mem d m') &&
      negb (startswith q m) && negb (startswith m q)
  | _, _ => false
  end.

(** *** The primitives on small inputs *)

Example replace_scans_left_to_right : replace "aa" "b" "aaa" = "ba".
Proof. reflexivity. Qed.

Example replace_every_match : replace "ab" "-" "xabyab" = "x-y-".
Proof. reflexivity. Qed.

Example replace_empty_pattern : replace EmptyString "-" "abc" = "-a-b-c-".
Proof. reflexivity. Qed.

Example split_every_separator : split "/" "a/b//c" = ["a"; "b"; EmptyString; "c"].
Proof. reflexivity. Qed.

Example split1_first_separator :
  split1 "_" "GPW_Population_Density_2000" = ["GPW"; "Population_Density_2000"].
Proof. reflexivity. Qed.

Example lstrip_all_leading : lstrip "P" "PP1D" = "1D".
Proof. reflexivity. Qed.

Example occ_overlapping : occ "aa" "aaa" = 2.
Proof. reflexivity. Qed.

(** *** Append *)

Lemma str_app_cons c s t : String c s +:+ t = String c (s +:+ t).
Proof. reflexivity. Qed.

Lemma str_app_nil_l s : EmptyString +:+ s = s.
Proof. reflexivity. Qed.

Lemma str_app_nil_r s : s +:+ EmptyString = s.
Proof. induction s as [|c s IH]; [done|]. by rewrite str_app_cons, IH. Qed.

Lemma str_app_assoc s t u : s +:+ (t +:+ u) = (s +:+ t) +:+ u.
Proof. induction s as [|c s IH]; [done|]. by rewrite !str_app_cons, IH. Qed.

Lemma str_length_app s t :
  String.length (s +:+ t) = String.length s + String.length t.
Proof. induction s as [|c s IH]; [done|]. rewrite str_app_cons. simpl. lia. Qed.

(** *** [startswith] *)

Lemma startswith_app p r : startswith p (p +:+ r) = true.
Proof.
  induction p as [|a p IH]; [done|].
  rewrite str_app_cons. simpl. by rewrite decide_True.
Qed.

Lemma startswith_inv p s :
  startswith p s = true → ∃ r, s = p +:+ r.
Proof.
  revert s. induction p as [|a p IH]; intros s H.
  - by exists s.
  - destruct s as [|b s]; [done|]. simpl in H.
    destruct (decide (a = b)) as [->|]; [|done].
    destruct (IH s H) as [r ->]. by exists r.
Qed.

Lemma startswith_weaken p s t :
  startswith p s = true → startswith p (s +:+ t) = true.
Proof.
  intros [r ->]%startswith_inv. rewrite <- str_app_assoc. apply startswith_app.
Qed.

(** A match that begins in [m +:+ b] at the first character of [m] lies
    inside [m] or covers it. *)
Lemma startswith_app_cases q m b :
  startswith q (m +:+ b) = true →
  startswith q m = true ∨ startswith m q = true.
Proof.
  revert m. induction q as [|d q IH]; intros m H; [by left|].
  destruct m as [|c m]; [by right|].
  rewrite str_app_cons in H. simpl in *.
  destruct (decide (d = c)) as [->|]; [|done].
  rewrite decide_True by done. by apply IH.
Qed.

(** A pattern none of whose characters is the first of [m] matches
    [a +:+ m +:+ b] at its start exactly when it matches [a]. *)
Lemma startswith_before q a c m b :
  mem c q = false →
  startswith q (a +:+ String c m +:+ b) = startswith q a.
Proof.
  revert q. induction a as [|e a IH]; intros q Hq.
  - destruct q as [|d q]; [done|]. rewrite str_app_nil_l, str_app_cons. simpl in *.
    destruct (decide (c = d)) as [->|]; [done|].
    by rewrite decide_False by congruence.
  - destruct q as [|d q]; [done|]. rewrite str_app_cons. simpl in *.
    destruct (decide (c = d)); [done|].
    destruct (decide (d = e)); [|done]. by apply IH.
Qed.

(** *** Occurrence counts *)

Lemma occ_nil q : q ≠ EmptyString → occ q EmptyString = 0.
Proof. by destruct q. Qed.

Lemma occ_cons q c s :
  occ q (String c s) = (if startswith q (String c s) then 1 else 0) + occ q s.
Proof. reflexivity. Qed.

Lemma occ_app_r q x b : occ q b ≤ occ q (x +:+ b).
Proof.
  induction x as [|c x IH]; [done|]. rewrite str_app_cons, occ_cons. lia.
Qed.

Lemma occ_app_ge q a y : q ≠ EmptyString → occ q a + occ q y ≤ occ q (a +:+ y).
Proof.
  intros Hq. induction a as [|c a IH].
  - by rewrite occ_nil.
  - rewrite str_app_cons, !occ_cons.
    destruct (startswith q (String c a)) eqn:E.
    + rewrite <- str_app_cons. rewrite (startswith_weaken _ _ _ E). lia.
    + destruct (startswith q _); lia.
Qed.

(** Replacing the middle part of a text cannot destroy the occurrences
    that lie on either side of it. *)
Lemma occ_sides_le q a m b :
  q ≠ EmptyString → occ q a + occ q b ≤ occ q (a +:+ m +:+ b).
Proof.
  intros Hq. pose proof (occ_app_ge q a (m +:+ b) Hq).
  pose proof (occ_app_r q m b). lia.
Qed.

Lemma occ_here q a b : 1 ≤ occ q (a +:+ q +:+ b).
Proof.
  etrans; [|apply occ_app_r]. destruct q as [|d q].
  - destruct b; simpl; lia.
  - rewrite str_app_cons, occ_cons, <- str_app_cons, startswith_app. lia.
Qed.

(** Characters other than the first of [q] cannot start a match. *)
Lemma occ_skip d q x b :
  mem d x = false → occ (String d q) (x +:+ b) = occ (String d q) b.
Proof.
  induction x as [|e x IH]; intros Hx; [done|]. simpl in Hx.
  destruct (decide (d = e)); [done|].
  rewrite str_app_cons, occ_cons, IH by done. simpl.
  by rewrite decide_False.
Qed.

Lemma occ_self_head d q r :
  mem d q = false →
  occ (String d q) (String d q +:+ r) = 1 + occ (String d q) r.
Proof.
  intros H. rewrite str_app_cons, occ_cons, occ_skip by done.
  change (String d (q +:+ r)) with (String d q +:+ r).
  by rewrite startswith_app.
Qed.

Lemma noverlap_nonempty_l q m : noverlap q m = true → q ≠ EmptyString.
Proof. by destruct q. Qed.

Lemma noverlap_nonempty_r q m : noverlap q m = true → m ≠ EmptyString.
Proof. by destruct q, m. Qed.

Lemma noverlap_sym q m : noverlap q m = noverlap m q.
Proof.
  destruct q as [|d q], m as [|c m]; try done. unfold noverlap.
  destruct (mem c q), (mem d m), (startswith (String d q) (String c m)),
    (startswith (String c m) (String d q)); done.
Qed.

(** The occurrences of [q] in a text around [m] are those to the left of
    [m] and those to its right. *)
Lemma occ_around q a m b :
  noverlap q m = true → occ q (a +:+ m +:+ b) = occ q a + occ q b.
Proof.
  intros H. destruct q as [|d q], m as [|c m]; try done.
  unfold noverlap in H.
  apply andb_true_iff in H as [H H4]. apply andb_true_iff in H as [H H3].
  apply andb_true_iff in H as [H1 H2].
  apply negb_true_iff in H1, H2, H3, H4.
  induction a as [|e a IH].
  - rewrite str_app_nil_l, occ_nil by done. rewrite str_app_cons, occ_cons.
    rewrite (occ_skip d q m b H2).
    destruct (startswith (String d q) (String c (m +:+ b))) eqn:E; [|done].
    rewrite <- str_app_cons in E. apply startswith_app_cases in E as [E|E];
      congruence.
  - rewrite str_app_cons, !occ_cons, IH.
    assert (startswith (String d q) (String e (a +:+ String c m +:+ b))
            = startswith (String d q) (String e a)) as ->; [|lia].
    simpl. destruct (decide (d = e)); [|done].
    by apply startswith_before.
Qed.

(** *** [replace] *)

Lemma replace_from_skip old new x r :
  replace_from old new (String.length x) (x +:+ r) = replace_from old new 0 r.
Proof. induction x as [|c x IH]; [by destruct r|]. by rewrite str_app_cons. Qed.

Lemma replace_nil old new : old ≠ EmptyString → replace old new EmptyString = EmptyString.
Proof. by destruct old. Qed.

Lemma replace_hit old new r :
  old ≠ EmptyString → replace old new (old +:+ r) = new +:+ replace old new r.
Proof.
  destruct old as [|c o]; [done|]. intros _. unfold replace.
  rewrite str_app_cons. simpl replace_from at 1.
  rewrite decide_True by done. rewrite startswith_app.
  by rewrite Nat.sub_0_r, replace_from_skip.
Qed.

Lemma replace_miss old new c s :
  old ≠ EmptyString → startswith old (String c s) = false →
  replace old new (String c s) = String c (replace old new s).
Proof.
  destruct old as [|d o]; [done|]. intros _ H. unfold replace.
  simpl replace_from at 1. simpl in H. by rewrite H.
Qed.

(** A text without an occurrence of [old] is returned unchanged. *)
Lemma replace_absent old new s :
  old ≠ EmptyString → occ old s = 0 → replace old new s = s.
Proof.
  intros Ho. induction s as [|c s IH]; intros H.
  - by apply replace_nil.
  - rewrite occ_cons in H.
    destruct (startswith old (String c s)) eqn:E; [lia|].
    rewrite replace_miss by done. f_equal. apply IH. lia.
Qed.

(** A single occurrence is replaced where it stands. *)
Lemma replace_single old new a b :
  old ≠ EmptyString → occ old (a +:+ old +:+ b) = 1 →
  replace old new (a +:+ old +:+ b) = a +:+ new +:+ b.
Proof.
  intros Ho. induction a as [|c a IH]; intros H.
  - rewrite !str_app_nil_l in *. rewrite replace_hit by done. f_equal.
    apply replace_absent; [done|].
    destruct old as [|d o]; [done|].
    rewrite str_app_cons, occ_cons, <- str_app_cons, startswith_app in H.
    pose proof (occ_app_r (String d o) o b). lia.
  - rewrite !str_app_cons in *. rewrite occ_cons in H.
    pose proof (occ_here old a b).
    destruct (startswith old (String c (a +:+ old +:+ b))) eqn:E; [lia|].
    rewrite replace_miss by done. f_equal. apply IH. lia.
Qed.

(** Either [old] does not occur, or the text splits at its first
    occurrence and the scan resumes after it. *)
Lemma replace_first old s :
  old ≠ EmptyString →
  occ old s = 0 ∨
  ∃ g r, s = g +:+ old +:+ r ∧
         ∀ new, replace old new s = g +:+ new +:+ replace old new r.
Proof.
  intros Ho. induction s as [|c s IH].
  - left. by apply occ_nil.
  - destruct (startswith old (String c s)) eqn:E.
    + right. destruct (startswith_inv _ _ E) as [r Hr].
      exists EmptyString, r. split; [done|]. intros new.
      rewrite Hr. by apply replace_hit.
    + destruct IH as [IH|(g & r & -> & IH)].
      * left. rewrite occ_cons, E. lia.
      * right. exists (String c g), r. split; [done|]. intros new.
        rewrite replace_miss by done. by rewrite IH.
Qed.

(** Inserting [new] never creates an occurrence of a string that cannot
    overlap [new]. *)
Lemma occ_replace_le q old new s :
  old ≠ EmptyString → noverlap q new = true →
  occ q (replace old new s) ≤ occ q s.
Proof.
  intros Ho Hq.
  remember (String.length s) as n eqn:Hn. revert s Hn.
  induction (lt_wf n) as [n _ IH]; intros s ->.
  destruct (replace_first old s Ho) as [H|(g & r & -> & H)].
  - by rewrite replace_absent.
  - rewrite H, occ_around by done.
    assert (occ q (replace old new r) ≤ occ q r) as Hr.
    { eapply IH; [|done]. rewrite !str_length_app.
      destruct old; [done|]. simpl. lia. }
    pose proof (occ_sides_le q g old r (noverlap_nonempty_l _ _ Hq)). lia.
Qed.

(** Strings over disjoint alphabets cannot overlap. *)
Lemma noverlap_disjoint q m :
  q ≠ EmptyString → m ≠ EmptyString →
  all_chars (λ c, negb (mem c m)) q = true → noverlap q m = true.
Proof.
  destruct q as [|d q], m as [|c m]; try done. intros _ _ H.
  simpl in H. apply andb_true_iff in H as [Hd Hq].
  destruct (decide (d = c)) as [->|Hdc]; [done|].
  unfold noverlap. simpl.
  rewrite (decide_False (P := d = c)) by done.
  rewrite (decide_False (P := c = d)) by congruence.
  apply negb_true_iff in Hd. rewrite Hd.
  assert (mem c q = false) as ->; [|done].
  clear Hd. induction q as [|e q IH]; [done|]. simpl in *.
  apply andb_true_iff in Hq as [He Hq].
  destruct (decide (e = c)) as [->|]; [done|].
  rewrite decide_False by congruence. by apply IH.
Qed.

End PyStr.

(** ** The tile URL template ([formulate_url_template]) *)

Module Template.
Import PyStr.

(** A Python float, held by the text [str] gives for it.  The conversion
    itself is the interpreter's; the model only relies on the characters it
    can emit (digits, sign, point, exponent, [inf], [nan]). *)
Record pyfloat := PyFloat { str : string }.

Definition float_char (c : ascii) : bool := mem c "0123456789+-.einfa".

Definition is_float_str (s : string) : bool :=
  negb (bool_decide (s = EmptyString)) && all_chars float_char s.

(** The module-level constants [XMIN], [YMIN], [XMAX], [YMAX]. *)
Record Bounds := MkBounds {
  XMIN : pyfloat;
  YMIN : pyfloat;
  XMAX : pyfloat;
  YMAX : pyfloat;
}.

(** The values both notebooks assign:
    [XMIN = -20037507.539400], [YMIN = 1638517.444800],
    [XMAX = 20037260.918700], [YMAX = 7714669.39460]. *)
Definition GLOBAL_BOUNDS : Bounds :=
  MkBounds (PyFloat "-20037507.5394") (PyFloat "1638517.4448")
           (PyFloat "20037260.9187") (PyFloat "7714669.3946").

(** [formulate_url_template(url)] of [web_map_services.ipynb]; the same
    chain ends [get_url_template] of the explorer. *)
Definition formulate_url_template (B : Bounds) (url : string) : string :=
  replace (str (YMAX B)) "{YMAX}"
    (replace (str (XMAX B)) "{XMAX}"
       (replace (str (YMIN B)) "{YMIN}"
          (replace (str (XMIN B)) "{XMIN}" url))).

(** The four coordinates of a bounding box. *)
Inductive coord := CXMIN | CYMIN | CXMAX | CYMAX.

#[global] Instance coord_eq_dec : EqDecision coord.
Proof. solve_decision. Defined.

Definition placeholder (h : coord) : string :=
  match h with
  | CXMIN => "{XMIN}"
  | CYMIN => "{YMIN}"
  | CXMAX => "{XMAX}"
  | CYMAX => "{YMAX}"
  end.

Definition value (B : Bounds) (h : coord) : string :=
  match h with
  | CXMIN => str (XMIN B)
  | CYMIN => str (YMIN B)
  | CXMAX => str (XMAX B)
  | CYMAX => str (YMAX B)
  end.

Definition wf_bounds (B : Bounds) : Prop :=
  ∀ h, is_float_str (value B h) = true.

(** The specification's inverse operation: substituting the coordinates
    of [B] into the placeholders of a request template. *)
Definition fill (B : Bounds) (template : string) : string :=
  replace "{YMAX}" (str (YMAX B))
    (replace "{XMAX}" (str (XMAX B))
       (replace "{YMIN}" (str (YMIN B))
          (replace "{XMIN}" (str (XMIN B)) template))).

(** Both directions are the same chain of four replacements. *)
Definition replace4 (f g : coord → string) (s : string) : string :=
  replace (f CYMAX) (g CYMAX)
    (replace (f CXMAX) (g CXMAX)
       (replace (f CYMIN) (g CYMIN)
          (replace (f CXMIN) (g CXMIN) s))).

(** *** Texts with marked coordinate positions

    A request seen as a sequence of literal characters and coordinate
    positions.  Rendering it with [placeholder] gives the template,
    rendering it with [value B] gives the concrete URL: the two renderings
    agree on every literal character. *)
Inductive token := Lit (c : ascii) | Hole (h : coord).

Fixpoint render (f : coord → string) (M : list token) : string :=
  match M with
  | [] => EmptyString
  | Lit c :: M' => String c (render f M')
  | Hole h :: M' => f h +:+ render f M'
  end.

Fixpoint count_hole (h : coord) (M : list token) : nat :=
  match M with
  | [] => 0
  | Lit _ :: M' => count_hole h M'
  | Hole k :: M' => (if decide (k = h) then 1 else 0) + count_hole h M'
  end.

Definition upd (f : coord → string) (h : coord) (t : string) : coord → string :=
  λ k, if decide (k = h) then t else f k.

Lemma render_app f M1 M2 : render f (M1 ++ M2) = render f M1 +:+ render f M2.
Proof.
  induction M1 as [|[c|h] M1 IH]; simpl; [done| |].
  - by rewrite IH.
  - by rewrite IH, str_app_assoc.
Qed.

Lemma count_hole_app h M1 M2 :
  count_hole h (M1 ++ M2) = count_hole h M1 + count_hole h M2.
Proof. induction M1 as [|[c|k] M1 IH]; simpl; lia. Qed.

Lemma render_ext f g M : (∀ h, f h = g h) → render f M = render g M.
Proof.
  intros E. induction M as [|[c|h] M IH]; simpl; [done| |]; by rewrite ?E, IH.
Qed.

Lemma render_upd_absent f h t M :
  count_hole h M = 0 → render (upd f h t) M = render f M.
Proof.
  induction M as [|[c|k] M IH]; simpl; intros H; [done| |].
  - by rewrite IH.
  - destruct (decide (k = h)); [lia|]. rewrite IH by lia.
    unfold upd. by rewrite decide_False.
Qed.

Lemma hole_split h M :
  count_hole h M = 1 →
  ∃ M1 M2, M = M1 ++ Hole h :: M2 ∧ count_hole h M1 = 0 ∧ count_hole h M2 = 0.
Proof.
  induction M as [|[c|k] M IH]; simpl; intros H; [done| |].
  - destruct (IH H) as (M1 & M2 & -> & ? & ?). by exists (Lit c :: M1), M2.
  - destruct (decide (k = h)) as [->|].
    + exists [], M. split; [done|]. split; [done|lia].
    + destruct (IH H) as (M1 & M2 & -> & ? & ?).
      exists (Hole k :: M1), M2. simpl. by rewrite decide_False.
Qed.

(** The rendering of a text in which [h] is marked once, around [h]. *)
Lemma render_around f h M :
  count_hole h M = 1 →
  ∃ a b, render f M = a +:+ f h +:+ b ∧
         ∀ t, render (upd f h t) M = a +:+ t +:+ b.
Proof.
  intros (M1 & M2 & -> & H1 & H2)%hole_split.
  exists (render f M1), (render f M2). split.
  - by rewrite render_app.
  - intros t. rewrite render_app. simpl.
    rewrite !render_upd_absent by done. unfold upd. by rewrite decide_True.
Qed.

Lemma occ_marked f h M : 1 ≤ count_hole h M → 1 ≤ occ (f h) (render f M).
Proof.
  induction M as [|[c|k] M IH]; cbn [render count_hole]; intros H; [lia| |].
  - rewrite occ_cons. specialize (IH H). lia.
  - destruct (decide (k = h)) as [->|].
    + apply (occ_here (f h) EmptyString).
    + etrans; [apply IH; lia|]. apply occ_app_r.
Qed.

(** One replacement moves one marked position from [f] to its new text. *)
Lemma replace_marked f h t M :
  count_hole h M = 1 → f h ≠ EmptyString → occ (f h) (render f M) = 1 →
  replace (f h) t (render f M) = render (upd f h t) M.
Proof.
  intros HM Hne Hocc. destruct (render_around f h M HM) as (a & b & E & E').
  rewrite E', E. apply replace_single; [done|]. by rewrite <- E.
Qed.

(** ... and leaves the other coordinate texts occurring exactly once. *)
Lemma occ_marked_preserved f h k t M :
  count_hole k M = 1 → 1 ≤ count_hole h M → h ≠ k →
  noverlap (f h) t = true →
  occ (f h) (render f M) = 1 → occ (f h) (render (upd f k t) M) = 1.
Proof.
  intros Hk Hh Hne Hno Hocc.
  pose proof (occ_marked (upd f k t) h M Hh) as Hge.
  unfold upd at 1 in Hge. rewrite decide_False in Hge by done.
  destruct (render_around f k M Hk) as (a & b & E & E').
  rewrite E' in *. rewrite E in Hocc. rewrite occ_around in * by done.
  pose proof (occ_sides_le (f h) a (f k) b (noverlap_nonempty_l _ _ Hno)).
  lia.
Qed.

Lemma replace4_render f g M :
  (∀ h, count_hole h M = 1) →
  (∀ h k, h ≠ k → noverlap (f h) (g k) = true) →
  (∀ h, occ (f h) (render f M) = 1) →
  replace4 f g (render f M) = render g M.
Proof.
  intros HM Hno Hocc.
  assert (∀ h, f h ≠ EmptyString) as Hne.
  { intros h. destruct h;
      [apply (noverlap_nonempty_l _ (g CYMIN))
      |apply (noverlap_nonempty_l _ (g CXMIN))
      |apply (noverlap_nonempty_l _ (g CXMIN))
      |apply (noverlap_nonempty_l _ (g CXMIN))]; by apply Hno. }
  set (f1 := upd f CXMIN (g CXMIN)).
  set (f2 := upd f1 CYMIN (g CYMIN)).
  set (f3 := upd f2 CXMAX (g CXMAX)).
  set (f4 := upd f3 CYMAX (g CYMAX)).
  assert (∀ h, h ≠ CXMIN → occ (f1 h) (render f1 M) = 1) as H1.
  { intros h Hh. unfold f1 at 1, upd at 1. rewrite decide_False by done.
    apply occ_marked_preserved; rewrite ?HM; auto. }
  assert (∀ h, h ≠ CXMIN → h ≠ CYMIN → occ (f2 h) (render f2 M) = 1) as H2.
  { intros h Hh Hh'. unfold f2 at 1, upd at 1. rewrite decide_False by done.
    apply occ_marked_preserved; rewrite ?HM; auto.
    unfold f1, upd. rewrite decide_False by done. auto. }
  assert (occ (f3 CYMAX) (render f3 M) = 1) as H3.
  { unfold f3 at 1, upd at 1. rewrite decide_False by done.
    apply occ_marked_preserved; rewrite ?HM; auto.
    unfold f2, f1, upd. rewrite !decide_False by done. auto. }
  unfold replace4.
  rewrite (replace_marked f CXMIN) by auto. fold f1.
  change (f CYMIN) with (f1 CYMIN).
  rewrite (replace_marked f1 CYMIN) by (auto; apply Hne). fold f2.
  change (f CXMAX) with (f2 CXMAX).
  rewrite (replace_marked f2 CXMAX) by (auto; apply Hne). fold f3.
  change (f CYMAX) with (f3 CYMAX).
  rewrite (replace_marked f3 CYMAX) by (auto; apply Hne).
  apply render_ext. by intros [].
Qed.

(** *** Coordinate texts and placeholders never overlap *)

Lemma all_chars_impl (p q : ascii → bool) s :
  (∀ c, p c = true → q c = true) → all_chars p s = true → all_chars q s = true.
Proof.
  intros Hpq. induction s as [|c s IH]; simpl; [done|].
  intros [Hc Hs]%andb_true_iff. apply andb_true_iff. auto.
Qed.

Lemma float_char_not_in m c :
  all_chars (λ d, negb (float_char d)) m = true →
  float_char c = true → negb (mem c m) = true.
Proof.
  induction m as [|d m IH]; simpl; [done|].
  intros [Hd Hm]%andb_true_iff Hc.
  destruct (decide (c = d)) as [->|]; [|by apply IH].
  by rewrite Hc in Hd.
Qed.

Lemma placeholder_not_float h :
  all_chars (λ d, negb (float_char d)) (placeholder h) = true.
Proof. by destruct h. Qed.

Lemma is_float_str_nonempty s : is_float_str s = true → s ≠ EmptyString.
Proof. intros [H _]%andb_true_iff ->. done. Qed.

Lemma float_placeholder_noverlap s h :
  is_float_str s = true → noverlap s (placeholder h) = true.
Proof.
  intros Hs. apply noverlap_disjoint.
  - by apply is_float_str_nonempty.
  - by destruct h.
  - apply andb_true_iff in Hs as [_ Hs].
    eapply all_chars_impl; [|exact Hs].
    intros c. apply float_char_not_in, placeholder_not_float.
Qed.

Lemma placeholder_noverlap h k :
  h ≠ k → noverlap (placeholder h) (placeholder k) = true.
Proof. by destruct h, k. Qed.

(** *** Every template can be marked *)

Lemma occ_placeholder_head h k r :
  occ (placeholder k) (placeholder h +:+ r)
  = (if decide (h = k) then 1 else 0) + occ (placeholder k) r.
Proof.
  destruct (decide (h = k)) as [->|Hne].
  - by destruct k; apply occ_self_head.
  - pose proof (occ_around (placeholder k) EmptyString (placeholder h) r) as E.
    rewrite str_app_nil_l, occ_nil in E by by destruct k.
    apply E, placeholder_noverlap. congruence.
Qed.

Lemma placeholder_here_or_not s :
  (∃ h, startswith (placeholder h) s = true) ∨
  (∀ h, startswith (placeholder h) s = false).
Proof.
  destruct (startswith (placeholder CXMIN) s) eqn:E1; [left; by exists CXMIN|].
  destruct (startswith (placeholder CYMIN) s) eqn:E2; [left; by exists CYMIN|].
  destruct (startswith (placeholder CXMAX) s) eqn:E3; [left; by exists CXMAX|].
  destruct (startswith (placeholder CYMAX) s) eqn:E4; [left; by exists CYMAX|].
  right. by intros [].
Qed.

Lemma template_marking T :
  ∃ M, render placeholder M = T ∧
       ∀ h, count_hole h M = occ (placeholder h) T.
Proof.
  remember (String.length T) as n eqn:Hn. revert T Hn.
  induction (lt_wf n) as [n _ IH]; intros T ->.
  destruct T as [|c T].
  { exists []. split; [done|]. by intros []. }
  destruct (placeholder_here_or_not (String c T)) as [[h Hh]|Hnone].
  - destruct (startswith_inv _ _ Hh) as [r Hr].
    destruct (IH (String.length r)) with (T := r) as (M & HM & Hc); [|done|].
    { rewrite Hr, str_length_app. destruct h; simpl; lia. }
    exists (Hole h :: M). rewrite Hr. split; [simpl; by rewrite HM|].
    intros k. simpl. by rewrite occ_placeholder_head, Hc.
  - destruct (IH (String.length T)) with (T := T) as (M & HM & Hc);
      [simpl; lia|done|].
    exists (Lit c :: M). split; [simpl; by rewrite HM|].
    intros k. rewrite occ_cons. simpl count_hole. rewrite Hc.
    by rewrite Hnone.
Qed.

(** *** The round trip *)

Lemma fill_render B M :
  wf_bounds B →
  (∀ h, count_hole h M = 1) →
  (∀ h, occ (placeholder h) (render placeholder M) = 1) →
  fill B (render placeholder M) = render (value B) M.
Proof.
  intros Hwf HM Hocc.
  change (fill B (render placeholder M))
    with (replace4 placeholder (value B) (render placeholder M)).
  apply replace4_render; [done| |done].
  intros h k _. rewrite noverlap_sym. by apply float_placeholder_noverlap.
Qed.

Lemma formulate_render B M :
  wf_bounds B →
  (∀ h, count_hole h M = 1) →
  (∀ h, occ (value B h) (render (value B) M) = 1) →
  formulate_url_template B (render (value B) M) = render placeholder M.
Proof.
  intros Hwf HM Hocc.
  change (formulate_url_template B (render (value B) M))
    with (replace4 (value B) placeholder (render (value B) M)).
  apply replace4_render; [done| |done].
  intros h k _. by apply float_placeholder_noverlap.
Qed.

(** C1: for every bounding box [B] (its coordinates in the decimal form
    [str] gives) and every request template [T] in which each of the four
    placeholders occurs exactly once, if each coordinate string occurs
    exactly once in the concrete URL [U] obtained by substituting the
    coordinates into [T], then [formulate_url_template] applied to [U]
    returns exactly [T], with each placeholder present exactly once;
    substituting the coordinates back reproduces [U]; and [U] and the result
    are two renderings of one marked text [M], so they differ only at the
    four coordinate positions and agree on every other character. *)
Theorem formulate_url_template_roundtrip (B : Bounds) (T : string) :
  wf_bounds B →
  (∀ h, occ (placeholder h) T = 1) →
  (∀ h, occ (value B h) (fill B T) = 1) →
  formulate_url_template B (fill B T) = T ∧
  (∀ h, occ (placeholder h) (formulate_url_template B (fill B T)) = 1) ∧
  fill B (formulate_url_template B (fill B T)) = fill B T ∧
  ∃ M, (∀ h, count_hole h M = 1) ∧
       fill B T = render (value B) M ∧
       formulate_url_template B (fill B T) = render placeholder M.
Proof.
  intros Hwf HT HU.
  destruct (template_marking T) as (M & <- & HM).
  assert (∀ h, count_hole h M = 1) as HM1 by (intros h; by rewrite HM).
  rewrite fill_render in * by done.
  rewrite formulate_render by done.
  rewrite fill_render by done.
  repeat split; try done. by exists M.
Qed.

(** The law at the notebooks' own constants and a GetMap request of the
    shape the WMS client produces. *)
Lemma formulate_url_template_roundtrip_witness :
  formulate_url_template GLOBAL_BOUNDS
    (fill GLOBAL_BOUNDS
       "https://gibs.example/wms.cgi?SERVICE=WMS&bbox={XMIN}%2C{YMIN}%2C{XMAX}%2C{YMAX}&width=256")
  = "https://gibs.example/wms.cgi?SERVICE=WMS&bbox={XMIN}%2C{YMIN}%2C{XMAX}%2C{YMAX}&width=256".
Proof.
  apply (formulate_url_template_roundtrip GLOBAL_BOUNDS).
  - by intros [].
  - by intros [].
  - by intros []; vm_compute.
Defined.

(** Where the coordinate strings are not found exactly once the law has
    nothing to say: with 1.0 and 11.0 in one box the first replacement also
    cuts into the second coordinate. *)
Example formulate_url_template_nested_coordinates :
  formulate_url_template
    (MkBounds (PyFloat "1.0") (PyFloat "11.0") (PyFloat "2.0") (PyFloat "3.0"))
    "bbox=1.0%2C11.0%2C2.0%2C3.0"
  = "bbox={XMIN}%2C1{XMIN}%2C{XMAX}%2C{YMAX}".
Proof. reflexivity. Qed.

(** *** A coordinate that is not found *)

Lemma miss_step B h k X :
  wf_bounds B →
  occ (value B h) X = 0 → occ (placeholder h) X = 0 →
  occ (value B h) (replace (value B k) (placeholder k) X) = 0 ∧
  occ (placeholder h) (replace (value B k) (placeholder k) X) = 0.
Proof.
  intros Hwf Hv Hp.
  pose proof (is_float_str_nonempty _ (Hwf k)) as Hk.
  destruct (decide (k = h)) as [->|Hne].
  - by rewrite replace_absent.
  - pose proof (occ_replace_le (value B h) (value B k) (placeholder k) X Hk
                  (float_placeholder_noverlap _ k (Hwf h))).
    pose proof (occ_replace_le (placeholder h) (value B k) (placeholder k) X Hk
                  (placeholder_noverlap h k (not_eq_sym Hne))).
    lia.
Qed.

(** C2 (as amended): if the decimal string of a coordinate of [B] does not
    occur in [U], and [U] does not already contain the corresponding
    placeholder token, then the template returned by
    [formulate_url_template] does not contain that placeholder.  The function
    is total: it returns a string on every input and reports nothing. *)
Theorem formulate_url_template_miss (B : Bounds) (U : string) (h : coord) :
  wf_bounds B →
  occ (value B h) U = 0 →
  occ (placeholder h) U = 0 →
  occ (placeholder h) (formulate_url_template B U) = 0.
Proof.
  intros Hwf Hv Hp. unfold formulate_url_template.
  destruct (miss_step B h CXMIN U Hwf Hv Hp) as [Hv1 Hp1].
  destruct (miss_step B h CYMIN _ Hwf Hv1 Hp1) as [Hv2 Hp2].
  destruct (miss_step B h CXMAX _ Hwf Hv2 Hp2) as [Hv3 Hp3].
  by destruct (miss_step B h CYMAX _ Hwf Hv3 Hp3) as [_ Hp4].
Qed.

(** A URL obtained for another bounding box: [str(XMIN)] is not found and
    the template has no [{XMIN}]. *)
Lemma formulate_url_template_miss_witness :
  occ "{XMIN}"
    (formulate_url_template GLOBAL_BOUNDS
       "https://gibs.example/wms.cgi?bbox=-180.0%2C1638517.4448%2C20037260.9187%2C7714669.3946")
  = 0.
Proof.
  apply (formulate_url_template_miss GLOBAL_BOUNDS _ CXMIN).
  - by intros [].
  - reflexivity.
  - reflexivity.
Defined.

(** C2 as stated fails on a text that already holds the token: [str(XMIN)]
    does not occur in it, yet the result contains [{XMIN}]. *)
Lemma formulate_url_template_miss_counterexample :
  wf_bounds GLOBAL_BOUNDS ∧
  occ (value GLOBAL_BOUNDS CXMIN) "https://gibs.example/wms.cgi?bbox={XMIN}" = 0 ∧
  formulate_url_template GLOBAL_BOUNDS "https://gibs.example/wms.cgi?bbox={XMIN}"
  = "https://gibs.example/wms.cgi?bbox={XMIN}" ∧
  occ (placeholder CXMIN)
    (formulate_url_template GLOBAL_BOUNDS "https://gibs.example/wms.cgi?bbox={XMIN}")
  = 1.
Proof. split; [by intros []|]. by vm_compute. Qed.

End Template.

(** ** The product/layer catalog built in [__init__] *)

Module Catalog.
Import PyStr.

(** The sentinel product of identifiers without an underscore. *)
Definition MISCELLANEOUS : string := "Miscellaneous".

(** [sorted(xs)] for a list of strings (code-point order). *)
Definition sorted (xs : list string) : list string := merge_sort String.le xs.

(** One turn of the loop [for layer in layers]. *)
Definition add_layer (products_layers : gmap string (list string))
    (layer : string) : gmap string (list string) :=
  if contains "_" layer then
    match split1 "_" layer with
    | [product; product_layer] =>
        let products_layers :=
          match products_layers !! product with
          | None => <[product := []]> products_layers
          | Some _ => products_layers
          end in
        alter (λ bucket, bucket ++ [product_layer]) product products_layers
    | _ => products_layers
    end
  else
    alter (λ bucket, bucket ++ [layer]) MISCELLANEOUS products_layers.

(** [self.products_layers] after the loop; [contents] are the layer
    identifiers of the capabilities document ([self.wms.contents]). *)
Definition build_products_layers (contents : list string)
    : gmap string (list string) :=
  foldl add_layer {[ MISCELLANEOUS := [] ]} (sorted contents).

(** [sorted(self.products_layers)]: the options of the product selector. *)
Definition product_options (products_layers : gmap string (list string))
    : list string :=
  sorted (map_to_list products_layers).*1.

(** The part of [s] before its first [sep], and the part after it. *)
Fixpoint before (sep : ascii) (s : string) : string :=
  match s with
  | EmptyString => EmptyString
  | String c s' => if decide (c = sep) then EmptyString else String c (before sep s')
  end.

Fixpoint after (sep : ascii) (s : string) : string :=
  match s with
  | EmptyString => EmptyString
  | String c s' => if decide (c = sep) then s' else after sep s'
  end.

(** The classification rule in the specification's words: an identifier
    with an underscore is split on its first underscore into
    (product, layer name); one without belongs, unmodified, to the sentinel
    product. *)
Definition classify (layer : string) : string * string :=
  if mem "_" layer then (before "_" layer, after "_" layer)
  else (MISCELLANEOUS, layer).

(** The layer names the rule sends to product [p], in order. *)
Definition bucket_of (layers : list string) (p : string) : list string :=
  (filter (λ e, e.1 = p) (classify <$> layers)).*2.

(** The number of entries held by all buckets together. *)
Definition total_entries (products_layers : gmap string (list string)) : nat :=
  sum_list_with (λ kv, length kv.2) (map_to_list products_layers).

(** *** Splitting on the first underscore *)

Lemma occ_char c s : 0 < occ (String c EmptyString) s ↔ mem c s = true.
Proof.
  induction s as [|d s IH].
  - cbn. split; [lia|done].
  - rewrite occ_cons. cbn [mem startswith].
    destruct (decide (c = d)); [split; [done|lia]|]. by rewrite <- IH.
Qed.

Lemma contains_char c s : contains (String c EmptyString) s = mem c s.
Proof.
  unfold contains. destruct (mem c s) eqn:E.
  - apply bool_decide_eq_true_2. by apply occ_char.
  - apply bool_decide_eq_false_2. rewrite occ_char. congruence.
Qed.

Lemma split1_mem sep s :
  mem sep s = true → split1 sep s = [before sep s; after sep s].
Proof.
  induction s as [|c s IH]; simpl; [done|].
  destruct (decide (sep = c)) as [->|Hne].
  - by rewrite !decide_True.
  - intros H. rewrite !decide_False by congruence. by rewrite IH.
Qed.

Lemma before_after sep s :
  mem sep s = true →
  s = before sep s +:+ String sep (after sep s) ∧ mem sep (before sep s) = false.
Proof.
  induction s as [|c s IH]; simpl; [done|].
  destruct (decide (sep = c)) as [->|Hne].
  - by rewrite !decide_True.
  - intros H. rewrite !decide_False by congruence.
    destruct (IH H) as [E1 E2]. simpl. rewrite decide_False by done.
    split; [|done]. by rewrite str_app_cons, <- E1.
Qed.

(** *** The loop *)

Lemma add_layer_lookup (cat : gmap string (list string)) layer p :
  is_Some (cat !! MISCELLANEOUS) →
  add_layer cat layer !! p =
    if decide (p = (classify layer).1)
    then Some (default [] (cat !! p) ++ [(classify layer).2])
    else cat !! p.
Proof.
  intros [misc Hmisc]. unfold add_layer, classify.
  rewrite contains_char. destruct (mem "_" layer) eqn:E; simpl.
  - rewrite split1_mem by done.
    destruct (cat !! before "_" layer) as [b|] eqn:Hb;
      rewrite lookup_alter; case_decide; case_decide; try congruence; subst.
    + by rewrite Hb.
    + by rewrite lookup_insert_eq, Hb.
    + by rewrite lookup_insert_ne.
  - rewrite lookup_alter; case_decide; case_decide; try congruence; subst.
    by rewrite Hmisc.
Qed.

Lemma add_layer_misc (cat : gmap string (list string)) layer :
  is_Some (cat !! MISCELLANEOUS) →
  is_Some (add_layer cat layer !! MISCELLANEOUS).
Proof.
  intros H. rewrite add_layer_lookup by done. by case_decide.
Qed.

Lemma bucket_of_cons layer layers p :
  bucket_of (layer :: layers) p =
    if decide (p = (classify layer).1)
    then (classify layer).2 :: bucket_of layers p
    else bucket_of layers p.
Proof.
  unfold bucket_of. rewrite fmap_cons, filter_cons.
  case_decide; case_decide; try congruence; done.
Qed.

Lemma foldl_add_layer_lookup layers (cat : gmap string (list string)) p :
  is_Some (cat !! MISCELLANEOUS) →
  foldl add_layer cat layers !! p =
    match cat !! p, bucket_of layers p with
    | None, [] => None
    | o, b => Some (default [] o ++ b)
    end.
Proof.
  revert cat. induction layers as [|layer layers IH]; intros cat Hmisc.
  - simpl. destruct (cat !! p); simpl; [|done]. by rewrite app_nil_r.
  - simpl. rewrite IH by by apply add_layer_misc.
    rewrite add_layer_lookup, bucket_of_cons by done.
    case_decide.
    + simpl. rewrite <- app_assoc. simpl. by destruct (cat !! p).
    + done.
Qed.

Lemma total_entries_alter (cat : gmap string (list string)) k b x :
  cat !! k = Some b →
  total_entries (alter (λ bucket, bucket ++ [x]) k cat) = S (total_entries cat).
Proof.
  intros Hk. unfold total_entries.
  rewrite <- (insert_delete_id cat k b Hk) at 2.
  rewrite <- (insert_delete_id cat k b Hk) at 1.
  rewrite alter_insert_eq.
  rewrite !map_to_list_insert by apply lookup_delete_eq.
  simpl. rewrite length_app. simpl. lia.
Qed.

Lemma total_entries_insert_nil (cat : gmap string (list string)) k :
  cat !! k = None → total_entries (<[k := []]> cat) = total_entries cat.
Proof.
  intros Hk. unfold total_entries. by rewrite map_to_list_insert.
Qed.

Lemma add_layer_total (cat : gmap string (list string)) layer :
  is_Some (cat !! MISCELLANEOUS) →
  total_entries (add_layer cat layer) = S (total_entries cat).
Proof.
  intros [misc Hmisc]. unfold add_layer.
  rewrite contains_char. destruct (mem "_" layer) eqn:E.
  - rewrite split1_mem by done.
    destruct (cat !! before "_" layer) as [b|] eqn:Hb.
    + by erewrite total_entries_alter.
    + erewrite total_entries_alter by apply lookup_insert_eq.
      by rewrite total_entries_insert_nil.
  - by erewrite total_entries_alter.
Qed.

Lemma foldl_add_layer_total layers (cat : gmap string (list string)) :
  is_Some (cat !! MISCELLANEOUS) →
  total_entries (foldl add_layer cat layers) = total_entries cat + length layers.
Proof.
  revert cat. induction layers as [|layer layers IH]; intros cat Hmisc; simpl.
  - lia.
  - rewrite IH by by apply add_layer_misc. rewrite add_layer_total by done. lia.
Qed.

Lemma total_entries_seed : total_entries {[ MISCELLANEOUS := [] ]} = 0.
Proof. unfold total_entries. by rewrite map_to_list_singleton. Qed.

Lemma seed_misc :
  is_Some (({[ MISCELLANEOUS := [] ]} : gmap string (list string)) !! MISCELLANEOUS).
Proof. rewrite lookup_singleton_eq. by eexists. Qed.

Lemma elem_of_sorted (x : string) xs : x ∈ sorted xs ↔ x ∈ xs.
Proof. unfold sorted. by rewrite merge_sort_Permutation. Qed.

Lemma classify_in_bucket layer layers :
  layer ∈ layers → (classify layer).2 ∈ bucket_of layers (classify layer).1.
Proof.
  intros H. unfold bucket_of. apply list_elem_of_fmap.
  exists (classify layer). split; [done|].
  apply list_elem_of_filter. split; [done|]. by apply list_elem_of_fmap_2.
Qed.

Lemma bucket_of_nil layers p :
  (∀ layer, layer ∈ layers → (classify layer).1 ≠ p) → bucket_of layers p = [].
Proof.
  induction layers as [|layer layers IH]; intros H; [done|].
  rewrite bucket_of_cons. rewrite decide_False.
  - apply IH. intros l Hl. apply H. by right.
  - intros ->. by eapply H; [left|].
Qed.

Lemma build_products_layers_lookup contents p :
  build_products_layers contents !! p =
    if decide (p = MISCELLANEOUS ∨ bucket_of (sorted contents) p ≠ [])
    then Some (bucket_of (sorted contents) p) else None.
Proof.
  unfold build_products_layers.
  rewrite foldl_add_layer_lookup by apply seed_misc.
  rewrite lookup_singleton.
  destruct (bucket_of (sorted contents) p) as [|x b] eqn:E;
    repeat case_decide; try done; intuition congruence.
Qed.

(** C3: the catalog built at construction puts every layer identifier in
    exactly one bucket.  For every product [p] the bucket of [p] is the list
    of layer names of the (sorted) identifiers that the rule [classify] sends
    to [p]; an identifier with an underscore is split at its first underscore
    into product and layer name, one without is kept unmodified under
    "Miscellaneous"; every identifier has its entry in the bucket of its
    product, and the buckets hold as many entries as there are identifiers.
    The three identifiers of the scenario give exactly the two buckets
    "GPW" and "Miscellaneous". *)
Theorem build_products_layers_buckets (contents : list string) :
  (∀ p, build_products_layers contents !! p =
        if decide (p = MISCELLANEOUS ∨ bucket_of (sorted contents) p ≠ [])
        then Some (bucket_of (sorted contents) p) else None) ∧
  (∀ layer, mem "_" layer = true →
     ∃ product product_layer,
       classify layer = (product, product_layer) ∧
       layer = product +:+ "_" +:+ product_layer ∧
       mem "_" product = false) ∧
  (∀ layer, mem "_" layer = false → classify layer = (MISCELLANEOUS, layer)) ∧
  (∀ layer, layer ∈ contents →
     ∃ bucket, build_products_layers contents !! (classify layer).1 = Some bucket ∧
               (classify layer).2 ∈ bucket) ∧
  total_entries (build_products_layers contents) = length contents ∧
  build_products_layers
    ["GPW_Population_Density_2000"; "GPW_Population_Density_2020"; "Water Bodies"]
  = {[ "GPW" := ["Population_Density_2000"; "Population_Density_2020"];
       "Miscellaneous" := ["Water Bodies"] ]}.
Proof.
  split; [apply build_products_layers_lookup|].
  split.
  { intros layer H. exists (before "_" layer), (after "_" layer).
    unfold classify. rewrite H. split; [done|]. by apply before_after. }
  split; [intros layer H; unfold classify; by rewrite H|].
  split.
  { intros layer H%elem_of_sorted%classify_in_bucket.
    rewrite build_products_layers_lookup.
    exists (bucket_of (sorted contents) (classify layer).1).
    split; [|done]. rewrite decide_True; [done|].
    right. intros E. rewrite E in H. by apply not_elem_of_nil in H. }
  split; [|by vm_compute].
  unfold build_products_layers.
  rewrite foldl_add_layer_total by apply seed_misc.
  rewrite total_entries_seed. unfold sorted.
  by rewrite merge_sort_Permutation.
Qed.

(** C10 (as amended): whatever the layer list, the catalog has a
    "Miscellaneous" bucket, and the product options include it; when every
    identifier contains an underscore and none has "Miscellaneous" itself as
    its product prefix, that bucket is empty. *)
Theorem miscellaneous_bucket_seeded (contents : list string) :
  is_Some (build_products_layers contents !! MISCELLANEOUS) ∧
  MISCELLANEOUS ∈ product_options (build_products_layers contents) ∧
  ((∀ layer, layer ∈ contents →
      mem "_" layer = true ∧ before "_" layer ≠ MISCELLANEOUS) →
   build_products_layers contents !! MISCELLANEOUS = Some []).
Proof.
  assert (is_Some (build_products_layers contents !! MISCELLANEOUS)) as Hs.
  { rewrite build_products_layers_lookup. rewrite decide_True by by left.
    by eexists. }
  split; [done|]. split.
  - destruct Hs as [b Hb]. unfold product_options. apply elem_of_sorted.
    apply list_elem_of_fmap. exists (MISCELLANEOUS, b). split; [done|].
    by apply elem_of_map_to_list.
  - intros H. rewrite build_products_layers_lookup.
    rewrite decide_True by by left. f_equal. apply bucket_of_nil.
    intros layer [Hm Hb]%elem_of_sorted%H. unfold classify. by rewrite Hm.
Qed.

(** Two identifiers with product prefixes: the sentinel bucket is there,
    and empty. *)
Lemma miscellaneous_bucket_seeded_witness :
  build_products_layers ["GPW_Population_Density_2000"; "MODIS_Terra_Aerosol"]
    !! MISCELLANEOUS = Some [].
Proof.
  apply (miscellaneous_bucket_seeded
           ["GPW_Population_Density_2000"; "MODIS_Terra_Aerosol"]).
  intros layer H. repeat (apply elem_of_cons in H as [->|H]); [done..|].
  by apply not_elem_of_nil in H.
Defined.

(** C10 as stated fails when an identifier has the sentinel itself as its
    prefix: every identifier contains an underscore, and the "Miscellaneous"
    bucket is not empty. *)
Lemma miscellaneous_bucket_counterexample :
  (∀ layer, layer ∈ ["Miscellaneous_Extra"] → mem "_" layer = true) ∧
  build_products_layers ["Miscellaneous_Extra"] !! MISCELLANEOUS = Some ["Extra"] ∧
  build_products_layers ["Miscellaneous_Extra"] !! MISCELLANEOUS ≠ Some [].
Proof.
  split; [by intros layer ->%list_elem_of_singleton|].
  split; [by vm_compute|]. by vm_compute.
Qed.

End Catalog.

(** ** The explorer ([NasaEarthDataGibsWmsExplorer]) *)

Module Explorer.
Import PyStr Template Catalog.

(** Exceptions; all three are subclasses of [Exception]. *)
Inductive exn :=
| ValueError (msg : string)
| KeyError (key : option string)
| ServiceException (msg : string).

Definition is_ValueError (e : exn) : bool :=
  match e with ValueError _ => true | _ => false end.

(** [except Exception] catches every value of [exn]. *)
Definition is_Exception (e : exn) : bool := true.

(** A [Select] or [DiscreteSlider]: its options and its current value. *)
Record Selector := MkSelector {
  options : list string;
  value : option string;
}.

(** What the explorer reads of a layer's metadata: [title],
    [timepositions] and [styles.get("default", {}).get("legend")]. *)
Record LayerMeta := MkLayerMeta {
  title : string;
  timepositions : option (list string);
  legend : option string;
}.

(** The [freq] handed to [pd.date_range]: a [Timedelta] (nanoseconds) or
    an offset alias string. *)
Inductive Freq :=
| FreqDelta (td : Z)
| FreqAlias (alias : string).

(** [get_map_kwargs]; [time] is [None] once the key has been popped, and
    [Some t] while the key is present with the value [t]. *)
Record GetMapKwargs := MkGetMapKwargs {
  kw_layers : list (option string);
  kw_srs : string;
  kw_bbox : Bounds;
  kw_size : nat * nat;
  kw_format : string;
  kw_transparent : bool;
  kw_time : option (option string);
}.

(** The dictionary [get_map_kwargs] that [get_url_template] builds. *)
Definition get_map_kwargs_of (layer time : option string) : GetMapKwargs :=
  MkGetMapKwargs [layer] "EPSG:3857" GLOBAL_BOUNDS (256, 256) "image/png"
    true (Some time).

(** [get_map_kwargs.pop("time")]. *)
Definition pop_time (kw : GetMapKwargs) : GetMapKwargs :=
  MkGetMapKwargs (kw_layers kw) (kw_srs kw) (kw_bbox kw) (kw_size kw)
    (kw_format kw) (kw_transparent kw) None.

(** Calls that leave the explorer, in the order they are made. *)
Inductive call :=
| PdTimedelta (step : string)
| PdDateRange (ini end_ : string) (freq : Freq)
| WmsGetMap (kw : GetMapKwargs)
| TriggerValueThrottled.

(** The explorer object, with the log of its outgoing calls. *)
Record State := MkState {
  wms_contents : gmap string LayerMeta;
  products_layers : gmap string (list string);
  product_select : Selector;
  layer_select : Selector;
  time_slider : Selector;
  image_pane : option string;
  loading : bool;
  calls : list call;
}.

Definition set_layer_select (w : Selector) (self : State) : State :=
  MkState (wms_contents self) (products_layers self) (product_select self)
    w (time_slider self) (image_pane self) (loading self) (calls self).

Definition set_time_slider (w : Selector) (self : State) : State :=
  MkState (wms_contents self) (products_layers self) (product_select self)
    (layer_select self) w (image_pane self) (loading self) (calls self).

Definition set_image_pane (o : option string) (self : State) : State :=
  MkState (wms_contents self) (products_layers self) (product_select self)
    (layer_select self) (time_slider self) o (loading self) (calls self).

Definition set_loading (b : bool) (self : State) : State :=
  MkState (wms_contents self) (products_layers self) (product_select self)
    (layer_select self) (time_slider self) (image_pane self) b (calls self).

Definition add_call (c : call) (self : State) : State :=
  MkState (wms_contents self) (products_layers self) (product_select self)
    (layer_select self) (time_slider self) (image_pane self) (loading self)
    (calls self ++ [c]).

(** *** Methods run on the object: state and exceptions *)

Definition M (A : Type) : Type := State → (exn + A) * State.

Definition ret {A} (a : A) : M A := λ self, (inr a, self).

Definition bind {A B} (m : M A) (k : A → M B) : M B :=
  λ self, match m self with
          | (inl e, self') => (inl e, self')
          | (inr a, self') => k a self'
          end.

Definition raise {A} (e : exn) : M A := λ self, (inl e, self).

Definition get : M State := λ self, (inr self, self).

Definition modify (f : State → State) : M unit := λ self, (inr tt, f self).

(** [try: m except <caught>: handler]. *)
Definition try_except {A} (m : M A) (caught : exn → bool) (handler : M A) : M A :=
  λ self, match m self with
          | (inl e, self') => if caught e then handler self' else (inl e, self')
          | (inr a, self') => (inr a, self')
          end.

(** [try: m finally: f]. *)
Definition try_finally {A} (m : M A) (f : State → State) : M A :=
  λ self, let '(r, self') := m self in (r, f self').

Notation "'do' x <- m ; k" := (bind m (λ x, k))
  (at level 10, x name, m at level 100, k at level 200).
Notation "'do_' m ; k" := (bind m (λ _, k))
  (at level 10, m at level 100, k at level 200).

(** *** Python values *)

(** [a or b] for values that are [None] or a [str]. *)
Definition py_or (a b : option string) : option string :=
  match a with
  | Some s => if decide (s = EmptyString) then b else Some s
  | None => b
  end.

(** How an f-string renders such a value. *)
Definition fmt (v : option string) : string :=
  match v with
  | Some s => s
  | None => "None"
  end.

(** *** Pure methods *)

(** [get_layer(self, product=None, product_layer=None)]. *)
Definition get_layer (self : State) (product product_layer : option string)
    : option string :=
  let product := py_or product (value (product_select self)) in
  if decide (product = Some MISCELLANEOUS)
  then py_or product_layer (value (layer_select self))
  else Some (fmt product +:+ "_" +:+
             fmt (py_or product_layer (value (layer_select self)))).

(** Modelled from the spec: [pd.date_range] with a [Timedelta] frequency
    belongs to pandas and is not part of the repository.  Following the
    specification it is "the full list of timestamps at [period] granularity
    between [start] and [end] inclusive": [start], [start + period], ... up
    to the last one not after [end].  The specification is silent about a
    period that is not positive; no timestamp is materialised then. *)
Definition date_range_steps (start end_ period : Z) : list Z :=
  if decide (0 < period ∧ start ≤ end_)%Z
  then (λ k : nat, (start + Z.of_nat k * period)%Z)
         <$> seq 0 (S (Z.to_nat ((end_ - start) / period)))
  else [].

(** The fallback of [update_time] in the words of the specification, for
    comparison with the code: "treat the period string as a count of days
    after stripping a leading P designator".  One leading "P" is removed and
    what is left is read as a decimal number of days, with or without the
    unit "D"; any other text is not a count of days. *)
Definition digit (c : ascii) : option N :=
  let n := N_of_ascii c in
  if decide (48 ≤ n ≤ 57)%N then Some (n - 48)%N else None.

Fixpoint decimal_days (acc : option N) (s : string) : option N :=
  match s with
  | EmptyString => acc
  | String c s' =>
      match digit c with
      | Some d => decimal_days (Some (10 * default 0%N acc + d)%N) s'
      | None => if decide (s = "D") then acc else None
      end
  end.

Definition spec_fallback_days (step : string) : option N :=
  match step with
  | EmptyString => None
  | String c rest =>
      if decide (c = "P"%char) then decimal_days None rest
      else decimal_days None step
  end.

(** The format string [update_time] hands to [strftime]. *)
Definition TIME_FORMAT : string := "%Y-%m-%dT%H:%M:%SZ".

Section Collaborators.

(** The value a [Select] or [DiscreteSlider] holds after [options] has
    been assigned, given the new options and the value it held before. *)
Variable react : list string → option string → option string.

(** [getmap] of the WMS client on the keyword arguments, followed by
    [geturl()]; the answer may depend on the moment of the request, here the
    number of calls made before it. *)
Variable wms_getmap : nat → GetMapKwargs → exn + string.

(** [pd.Timedelta(step)], in nanoseconds. *)
Variable pd_Timedelta : string → exn + Z.

(** The timestamp (nanoseconds since the epoch) pandas reads from a
    string, [pd.date_range] with an offset alias, and [strftime(format)] on
    one timestamp. *)
Variable pd_to_datetime : string → exn + Z.
Variable pd_date_range_alias : Z → Z → string → exn + list Z.
Variable strftime : string → Z → string.

(** [pd.date_range(ini, end, freq=freq)]. *)
Definition pd_date_range (ini end_ : string) (freq : Freq) : exn + list Z :=
  match pd_to_datetime ini with
  | inl e => inl e
  | inr start =>
      match pd_to_datetime end_ with
      | inl e => inl e
      | inr stop =>
          match freq with
          | FreqDelta td => inr (date_range_steps start stop td)
          | FreqAlias alias => pd_date_range_alias start stop alias
          end
      end
  end.

(** An outgoing call: logged, then answered. *)
Definition calling {A} (c : call) (answer : nat → exn + A) : M A :=
  λ self, (answer (length (calls self)), add_call c self).

(** [widget.options = opts]. *)
Definition assign_options (opts : list string) (w : Selector) : Selector :=
  MkSelector opts (react opts (value w)).

(** [refresh_layer(self, clicks=None)]. *)
Definition refresh_layer : M unit :=
  modify (add_call TriggerValueThrottled).

(** [update_layers(self, product)]. *)
Definition update_layers (product : string) : M unit :=
  do self <- get;
  match products_layers self !! product with
  | None => raise (KeyError (Some product))
  | Some product_layers =>
      modify (λ self, set_layer_select
                (assign_options (sorted product_layers) (layer_select self))
                self)
  end.

(** The [try]/[except ValueError] block of [update_time]. *)
Definition period_freq (step : string) : M Freq :=
  try_except
    (do td <- calling (PdTimedelta step) (λ _, pd_Timedelta step);
     ret (FreqDelta td))
    is_ValueError
    (ret (FreqAlias (lstrip "P" step))).

(** [update_time(self, product_layer)]. *)
Definition update_time (product_layer : option string) : M unit :=
  do self <- get;
  let layer := get_layer self None None in
  match layer ≫= (λ l, wms_contents self !! l) with
  | None => raise (KeyError layer)
  | Some meta =>
      do_ match timepositions meta with
          | Some (descriptor :: _) =>
              match split "/" descriptor with
              | [ini; end_; step] =>
                  do freq <- period_freq step;
                  do stamps <- calling (PdDateRange ini end_ freq)
                                 (λ _, pd_date_range ini end_ freq);
                  match strftime TIME_FORMAT <$> stamps with
                  | [] => ret tt
                  | first :: rest =>
                      modify (set_time_slider
                                (MkSelector (first :: rest) (Some first)))
                  end
              | _ => raise (ValueError "unpack")
              end
          | _ =>
              modify (λ self, set_time_slider
                        (assign_options ["N/A"] (time_slider self)) self)
          end;
      refresh_layer
  end.

(** What is left of [update_time] once the frequency is known: the call of
    [pd.date_range], the guarded update of the slider and the refresh. *)
Definition run_date_range (ini end_ : string) (freq : Freq) (self : State)
    : (exn + unit) * State :=
  let self := add_call (PdDateRange ini end_ freq) self in
  match pd_date_range ini end_ freq with
  | inl e => (inl e, self)
  | inr stamps =>
      (inr tt,
       add_call TriggerValueThrottled
         match strftime TIME_FORMAT <$> stamps with
         | [] => self
         | first :: rest =>
             set_time_slider (MkSelector (first :: rest) (Some first)) self
         end)
  end.

(** [get_url_template(self, layer, time=None)]. *)
Definition get_url_template (layer time : option string) : M string :=
  let get_map_kwargs := get_map_kwargs_of layer time in
  do url <- try_except
              (calling (WmsGetMap get_map_kwargs)
                 (λ n, wms_getmap n get_map_kwargs))
              is_Exception
              (calling (WmsGetMap (pop_time get_map_kwargs))
                 (λ n, wms_getmap n (pop_time get_map_kwargs)));
  ret (replace (str (YMAX GLOBAL_BOUNDS)) "{YMAX}"
         (replace (str (XMAX GLOBAL_BOUNDS)) "{XMAX}"
            (replace (str (YMIN GLOBAL_BOUNDS)) "{YMIN}"
               (replace (str (XMIN GLOBAL_BOUNDS)) "{XMIN}" url)))).

(** [update_web_map(self, value_throttled=None)]; the result stands for
    [hv.Tiles(url_template).opts(title=layer_meta.title)].  The lookup
    [self.wms[layer]] goes through the client's [__getitem__], whose
    [KeyError] carries a message and not the key. *)
Definition update_web_map : M (string * string) :=
  try_finally
    (do_ modify (set_loading true);
     do self <- get;
     let layer := get_layer self None None in
     let time := value (time_slider self) in
     let time := if decide (time = Some "N/A") then None else time in
     do url_template <- get_url_template layer time;
     match layer ≫= (λ l, wms_contents self !! l) with
     | None => raise (KeyError (Some ("No content named " +:+ fmt layer)))
     | Some layer_meta =>
         do_ modify (set_image_pane (legend layer_meta));
         ret (url_template, title layer_meta)
     end)
    (set_loading false).

End Collaborators.

(** The contract of the widget toolkit the explorer relies on: once
    non-empty options have been assigned, the widget holds one of them. *)
Definition keeps_value_in_options
    (react : list string → option string → option string) : Prop :=
  ∀ opts old, opts ≠ [] → ∃ v, react opts old = Some v ∧ v ∈ opts.

(** *** Collaborators for the examples *)

(** A widget that keeps its value when it is still an option and takes
    the first option otherwise. *)
Definition panel_react (opts : list string) (old : option string)
    : option string :=
  match old with
  | Some v => if decide (v ∈ opts) then Some v else head opts
  | None => head opts
  end.

(** A widget that keeps the value it holds when its options are replaced. *)
Definition keeping_react (opts : list string) (old : option string)
    : option string := old.

(** A service that rejects every request carrying a time instant. *)
Definition timeless_getmap (n : nat) (kw : GetMapKwargs) : exn + string :=
  match kw_time kw with
  | Some (Some _) => inl (ServiceException "Invalid TIME")
  | _ =>
      inr "https://gibs.example/wms.cgi?SERVICE=WMS&bbox=-20037507.5394%2C1638517.4448%2C20037260.9187%2C7714669.3946&width=256"
  end.

(** A service that is down. *)
Definition failing_getmap (n : nat) (kw : GetMapKwargs) : exn + string :=
  inl (ServiceException "unreachable").

(** A duration parser that knows one day and rejects everything else. *)
Definition day_Timedelta (step : string) : exn + Z :=
  if decide (step = "P1D") then inr 86400000000000%Z
  else inl (ValueError "invalid unit").

(** Three instants, two days apart at most. *)
Definition three_days_to_datetime (s : string) : exn + Z :=
  if decide (s = "2000-01-01T00:00:00Z") then inr 946684800000000000%Z
  else if decide (s = "2000-01-02T00:00:00Z") then inr 946771200000000000%Z
  else if decide (s = "2000-01-03T00:00:00Z") then inr 946857600000000000%Z
  else inl (ValueError "unknown string format").

(** A formatter that knows one format and these three instants; any other
    format is returned as it is. *)
Definition three_days_strftime (format : string) (t : Z) : string :=
  if decide (format = "%Y-%m-%dT%H:%M:%SZ") then
    if decide (t = 946684800000000000%Z) then "2000-01-01T00:00:00Z"
    else if decide (t = 946771200000000000%Z) then "2000-01-02T00:00:00Z"
    else if decide (t = 946857600000000000%Z) then "2000-01-03T00:00:00Z"
    else "1970-01-01T00:00:00Z"
  else format.

Definition ends_date_range_alias (start stop : Z) (alias : string)
    : exn + list Z :=
  inr [start; stop].

(** An explorer over four layers: one per kind of temporal extent. *)
Definition demo_contents : gmap string LayerMeta :=
  {[ "GPW_Population_Density_2000" :=
       MkLayerMeta "Population Density 2000" None None;
     "MODIS_Terra_Aerosol" :=
       MkLayerMeta "Aerosol"
         (Some ["2000-01-01T00:00:00Z/2000-01-03T00:00:00Z/P1D"]) None;
     "MODIS_Terra_Reversed" :=
       MkLayerMeta "Reversed"
         (Some ["2000-01-03T00:00:00Z/2000-01-01T00:00:00Z/P1D"]) None;
     "VIIRS_Yearly" :=
       MkLayerMeta "Yearly"
         (Some ["2000-01-01T00:00:00Z/2000-01-03T00:00:00Z/P5Y"]) None ]}.

Definition demo_layers : list string :=
  ["GPW_Population_Density_2000"; "MODIS_Terra_Aerosol";
   "MODIS_Terra_Reversed"; "VIIRS_Yearly"].

Definition demo_explorer (product layer : string) : State :=
  MkState demo_contents (build_products_layers demo_layers)
    (MkSelector (product_options (build_products_layers demo_layers))
       (Some product))
    (MkSelector [layer] (Some layer))
    (MkSelector ["N/A"] (Some "N/A"))
    None false [].

(** *** [get_layer] *)

(** C4 (as amended): for every non-empty product [P] and non-empty layer
    name [L], [get_layer] returns [L] unchanged when [P] is "Miscellaneous"
    and [P + "_" + L] otherwise, whatever is selected in the widgets; in
    particular ("Miscellaneous", "Water Bodies") gives "Water Bodies" and
    ("GPW", "Population_Density_2000") gives "GPW_Population_Density_2000".
    An argument that is empty or omitted is replaced by the value selected
    in the corresponding widget: the result is the one [get_layer] gives for
    that value. *)
Theorem get_layer_qualified (self : State) (P L : string) :
  P ≠ EmptyString → L ≠ EmptyString →
  get_layer self (Some P) (Some L)
  = Some (if decide (P = MISCELLANEOUS) then L else P +:+ "_" +:+ L) ∧
  get_layer self (Some "Miscellaneous") (Some "Water Bodies")
  = Some "Water Bodies" ∧
  get_layer self (Some "GPW") (Some "Population_Density_2000")
  = Some "GPW_Population_Density_2000" ∧
  (∀ product product_layer,
     product = None ∨ product = Some EmptyString →
     get_layer self product product_layer
     = get_layer self (value (product_select self)) product_layer) ∧
  (∀ product product_layer,
     product_layer = None ∨ product_layer = Some EmptyString →
     get_layer self product product_layer
     = get_layer self product (value (layer_select self))) ∧
  get_layer self None (Some L)
  = (if decide (value (product_select self) = Some MISCELLANEOUS)
     then Some L
     else Some (fmt (value (product_select self)) +:+ "_" +:+ L)) ∧
  get_layer self (Some P) None
  = (if decide (P = MISCELLANEOUS) then value (layer_select self)
     else Some (P +:+ "_" +:+ fmt (value (layer_select self)))).
Proof.
  intros HP HL.
  assert (∀ v, py_or v v = v) as Hself.
  { intros [s|]; [simpl; by case_decide|done]. }
  assert (∀ a b, a = None ∨ a = Some EmptyString → py_or a b = b) as Hfalsy.
  { by intros a b [-> | ->]. }
  assert (∀ a b : option string,
            a = None ∨ a = Some EmptyString → py_or a b = py_or b b) as Hrepl.
  { intros a b Ha. by rewrite Hself, Hfalsy. }
  split; [|split; [by vm_compute|split; [by vm_compute|]]].
  - unfold get_layer, py_or.
    destruct (decide (P = EmptyString)); [done|].
    destruct (decide (L = EmptyString)); [done|].
    destruct (decide (P = MISCELLANEOUS)) as [->|Hne].
    + by rewrite decide_True.
    + rewrite decide_False by congruence. done.
  - split; [|split; [|split]].
    + intros product product_layer Hp. unfold get_layer.
      by rewrite (Hrepl product _ Hp).
    + intros product product_layer Hl. unfold get_layer.
      by rewrite (Hrepl product_layer _ Hl).
    + unfold get_layer. simpl.
      by destruct (decide (L = EmptyString)).
    + unfold get_layer. simpl.
      destruct (decide (P = EmptyString)); [done|].
      destruct (decide (P = MISCELLANEOUS)) as [->|Hne].
      * by rewrite decide_True.
      * by rewrite decide_False by congruence.
Qed.

Lemma get_layer_qualified_witness :
  get_layer (demo_explorer "MODIS" "Terra_Aerosol")
    (Some "GPW") (Some "Population_Density_2000")
  = Some "GPW_Population_Density_2000" ∧
  get_layer (demo_explorer "MODIS" "Terra_Aerosol")
    (Some EmptyString) (Some "Water Bodies")
  = get_layer (demo_explorer "MODIS" "Terra_Aerosol")
      (Some "MODIS") (Some "Water Bodies") ∧
  get_layer (demo_explorer "MODIS" "Terra_Aerosol") (Some "GPW") None
  = Some "GPW_Terra_Aerosol".
Proof.
  destruct (get_layer_qualified (demo_explorer "MODIS" "Terra_Aerosol")
              "GPW" "Population_Density_2000" ltac:(done) ltac:(done))
    as (H1 & _ & _ & H2 & _ & _ & H3).
  split; [exact H1|]. split; [|exact H3].
  exact (H2 (Some EmptyString) (Some "Water Bodies") (or_intror eq_refl)).
Defined.

(** C4 as stated fails on the empty string: an empty product is replaced
    by the product selected in the widget, so the result is not
    [P + "_" + L]. *)
Lemma get_layer_empty_product_counterexample :
  get_layer (demo_explorer "MODIS" "Terra_Aerosol")
    (Some EmptyString) (Some "Water Bodies")
  = Some "MODIS_Water Bodies" ∧
  get_layer (demo_explorer "MODIS" "Terra_Aerosol")
    (Some EmptyString) (Some "Water Bodies")
  ≠ Some (EmptyString +:+ "_" +:+ "Water Bodies").
Proof. split; [done|]. by vm_compute. Qed.

Section Laws.

Variable react : list string → option string → option string.
Variable wms_getmap : nat → GetMapKwargs → exn + string.
Variable pd_Timedelta : string → exn + Z.
Variable pd_to_datetime : string → exn + Z.
Variable pd_date_range_alias : Z → Z → string → exn + list Z.
Variable strftime : string → Z → string.

(** *** [update_layers] *)


End Laws.

Lemma panel_react_law : keeps_value_in_options panel_react.
Proof.
  intros opts old Hne. unfold panel_react.
  destruct opts as [|o opts]; [done|].
  destruct old as [v|]; [case_decide|]; simpl; eauto using list_elem_of_here.
Qed.


Example update_layers_takes_first_option :
  layer_select
    (update_layers panel_react "MODIS"
       (demo_explorer "MODIS" "Population_Density_2000")).2
  = MkSelector ["Terra_Aerosol"; "Terra_Reversed"] (Some "Terra_Aerosol").
Proof. by vm_compute. Qed.


(** *** The timestamps between [start] and [end] *)

Lemma date_range_steps_lookup start stop td i :
  (0 < td)%Z → (start ≤ stop)%Z →
  date_range_steps start stop td !! i =
    if decide (i ≤ Z.to_nat ((stop - start) / td))
    then Some (start + Z.of_nat i * td)%Z else None.
Proof.
  intros Htd Hle. unfold date_range_steps. rewrite decide_True by done.
  rewrite list_lookup_fmap. case_decide.
  - by rewrite lookup_seq_lt by lia.
  - by rewrite lookup_seq_ge by lia.
Qed.

Lemma date_range_steps_last start stop td :
  (0 < td)%Z → (start ≤ stop)%Z →
  ∃ z, last (date_range_steps start stop td) = Some z ∧ (z ≤ stop < z + td)%Z.
Proof.
  intros Htd Hle. unfold date_range_steps. rewrite decide_True by done.
  rewrite seq_S, fmap_app. cbn [fmap list_fmap]. rewrite last_snoc.
  eexists. split; [done|]. simpl.
  assert (0 ≤ (stop - start) / td)%Z by (apply Z.div_pos; lia).
  rewrite Z2Nat.id by done.
  pose proof (Z.mul_div_le (stop - start) td Htd).
  pose proof (Z.mul_succ_div_gt (stop - start) td Htd). lia.
Qed.

Lemma date_range_steps_cons start stop td :
  (0 < td)%Z → (start ≤ stop)%Z →
  ∃ rest, date_range_steps start stop td = start :: rest.
Proof.
  intros Htd Hle. unfold date_range_steps. rewrite decide_True by done.
  cbn [seq fmap list_fmap]. eexists. f_equal. lia.
Qed.

Section Handlers.

Variable react : list string → option string → option string.
Variable wms_getmap : nat → GetMapKwargs → exn + string.
Variable pd_Timedelta : string → exn + Z.
Variable pd_to_datetime : string → exn + Z.
Variable pd_date_range_alias : Z → Z → string → exn + list Z.
Variable strftime : string → Z → string.

Abbreviation update_time :=
  (update_time react pd_Timedelta pd_to_datetime pd_date_range_alias strftime).
Abbreviation pd_date_range :=
  (pd_date_range pd_to_datetime pd_date_range_alias).
Abbreviation run_date_range :=
  (run_date_range pd_to_datetime pd_date_range_alias strftime).

(** *** [get_url_template] *)

(** C8: when the GetMap request made with the [time] argument fails,
    [get_url_template] makes exactly one more request, identical except that
    the [time] key has been removed; when that request succeeds the template
    is built from its URL, and when it fails its exception is what
    [get_url_template] raises, with no further request. *)
Theorem get_url_template_retry (self : State) (layer time : option string)
    (e1 : exn) :
  wms_getmap (length (calls self)) (get_map_kwargs_of layer time) = inl e1 →
  ∃ r self',
    get_url_template wms_getmap layer time self = (r, self') ∧
    calls self' = calls self ++
      [WmsGetMap (get_map_kwargs_of layer time);
       WmsGetMap (pop_time (get_map_kwargs_of layer time))] ∧
    pop_time (get_map_kwargs_of layer time)
    = MkGetMapKwargs [layer] "EPSG:3857" GLOBAL_BOUNDS (256, 256) "image/png"
        true None ∧
    r = match wms_getmap (S (length (calls self)))
                (pop_time (get_map_kwargs_of layer time)) with
        | inr url => inr (formulate_url_template GLOBAL_BOUNDS url)
        | inl e2 => inl e2
        end.
Proof.
  intros H1. unfold get_url_template, bind, try_except, calling.
  rewrite H1. simpl. rewrite length_app. simpl.
  replace (length (calls self) + 1) with (S (length (calls self))) by lia.
  destruct (wms_getmap (S (length (calls self))) _) as [e2|url];
    eexists _, _; (split; [done|]); simpl; by rewrite <- app_assoc.
Qed.

(** *** [update_time] *)


Lemma update_time_descriptor (self : State) (product_layer : option string)
    (layer : string) (meta : LayerMeta) (descriptor : string)
    (more : list string) (ini end_ step : string) :
  get_layer self None None = Some layer →
  wms_contents self !! layer = Some meta →
  timepositions meta = Some (descriptor :: more) →
  split "/" descriptor = [ini; end_; step] →
  update_time product_layer self =
    match pd_Timedelta step with
    | inr td =>
        run_date_range ini end_ (FreqDelta td) (add_call (PdTimedelta step) self)
    | inl e =>
        if is_ValueError e
        then run_date_range ini end_ (FreqAlias (lstrip "P" step))
               (add_call (PdTimedelta step) self)
        else (inl e, add_call (PdTimedelta step) self)
    end.
Proof.
  intros Hlayer Hmeta Htp Hsplit.
  unfold update_time, bind, get. rewrite Hlayer. simpl.
  rewrite Hmeta, Htp, Hsplit.
  unfold period_freq, try_except, bind, calling, ret, Explorer.run_date_range.
  destruct (pd_Timedelta step) as [e|td].
  - destruct (is_ValueError e); [|done].
    destruct (pd_date_range ini end_ _) as [e'|stamps]; [done|].
    by destruct (strftime TIME_FORMAT <$> stamps).
  - destruct (pd_date_range ini end_ _) as [e'|stamps]; [done|].
    by destruct (strftime TIME_FORMAT <$> stamps).
Qed.

Lemma run_date_range_calls ini end_ freq self :
  ∃ rest,
    calls (run_date_range ini end_ freq self).2
    = calls self ++ PdDateRange ini end_ freq :: rest ∧
    ∀ c, c ∈ rest → c = TriggerValueThrottled.
Proof.
  unfold Explorer.run_date_range.
  destruct (pd_date_range ini end_ freq) as [e|stamps].
  - exists []. split; [done|]. by intros c ?%not_elem_of_nil.
  - exists [TriggerValueThrottled]. split.
    + destruct (strftime TIME_FORMAT <$> stamps); simpl; by rewrite <- app_assoc.
    + by intros c ->%list_elem_of_singleton.
Qed.

(** [lstrip] with a single character removes every leading copy of it. *)
Lemma lstrip_leading (c : ascii) (s : string) :
  ∃ ps,
    s = ps +:+ lstrip (String c EmptyString) s ∧
    all_chars (λ d, bool_decide (d = c)) ps = true ∧
    startswith (String c EmptyString) (lstrip (String c EmptyString) s) = false.
Proof.
  induction s as [|d s (ps & Hs & Hps & Hst)].
  - by exists EmptyString.
  - cbn [lstrip mem]. destruct (decide (d = c)) as [->|Hne].
    + exists (String c ps). cbn [all_chars]. rewrite bool_decide_eq_true_2 by done.
      split; [rewrite str_app_cons; f_equal; exact Hs|done].
    + exists EmptyString. split; [done|]. split; [done|].
      simpl. by rewrite decide_False by congruence.
Qed.

(** C6 (as amended): for every descriptor [ini/end/step], [update_time]
    first calls [pd.Timedelta(step)].  When that call returns a duration, the
    duration itself is the frequency handed to [pd.date_range] and the
    fallback is not taken.  Only when it raises [ValueError] is the frequency
    the fallback [step.lstrip("P")]: the period without any of its leading
    "P"s, unit included, handed over as text (so "P1D" becomes "1D" and "P5Y"
    becomes "5Y").  Any other exception leaves the handler at once. *)
Theorem update_time_parses_period_first (self : State)
    (product_layer : option string) (layer : string) (meta : LayerMeta)
    (descriptor : string) (more : list string) (ini end_ step : string) :
  get_layer self None None = Some layer →
  wms_contents self !! layer = Some meta →
  timepositions meta = Some (descriptor :: more) →
  split "/" descriptor = [ini; end_; step] →
  ∃ r self' rest,
    update_time product_layer self = (r, self') ∧
    calls self' = calls self ++ PdTimedelta step :: rest ∧
    match pd_Timedelta step with
    | inr td =>
        ∃ rest', rest = PdDateRange ini end_ (FreqDelta td) :: rest' ∧
                 ∀ c, c ∈ rest' → c = TriggerValueThrottled
    | inl (ValueError _) =>
        ∃ rest', rest = PdDateRange ini end_ (FreqAlias (lstrip "P" step)) :: rest' ∧
                 ∀ c, c ∈ rest' → c = TriggerValueThrottled
    | inl e => rest = [] ∧ r = inl e
    end ∧
    (∃ ps, step = ps +:+ lstrip "P" step ∧
           all_chars (λ c, bool_decide (c = "P"%char)) ps = true ∧
           startswith "P" (lstrip "P" step) = false) ∧
    lstrip "P" "P1D" = "1D" ∧
    lstrip "P" "P5Y" = "5Y".
Proof.
  intros Hlayer Hmeta Htp Hsplit.
  rewrite (update_time_descriptor self product_layer layer meta descriptor
             more ini end_ step) by done.
  pose proof (lstrip_leading "P" step) as Hstrip.
  destruct (pd_Timedelta step) as [e|td].
  - destruct e as [msg|key|msg]; simpl.
    + destruct (run_date_range_calls ini end_ (FreqAlias (lstrip "P" step))
                  (add_call (PdTimedelta step) self)) as (rest & Hc & Hrest).
      eexists _, _, _. split; [apply surjective_pairing|].
      split; [rewrite Hc; simpl; by rewrite <- app_assoc|].
      split; [eauto|]. by split.
    + eexists _, _, []. do 3 (split; [done|]). by split.
    + eexists _, _, []. do 3 (split; [done|]). by split.
  - destruct (run_date_range_calls ini end_ (FreqDelta td)
                (add_call (PdTimedelta step) self)) as (rest & Hc & Hrest).
    eexists _, _, _. split; [apply surjective_pairing|].
    split; [rewrite Hc; simpl; by rewrite <- app_assoc|].
    split; [eauto|]. by split.
Qed.

(** C5 (as amended): for a layer whose descriptor is [ini/end/step], where
    [step] parses as a positive duration.  When [ini] is not after [end],
    [update_time] sets the options of the time slider to the timestamps
    [start], [start + period], ..., a strictly increasing sequence whose last
    element is at most [end] and less than one period before it, each
    formatted by [strftime] with the format "%Y-%m-%dT%H:%M:%SZ", and sets
    the slider's value to the first of them.  When [ini] is after [end], no
    timestamp is materialised and the handler leaves the options and the
    value of the slider as they were. *)
Theorem update_time_materialises_steps (self : State)
    (product_layer : option string) (layer : string) (meta : LayerMeta)
    (descriptor : string) (more : list string) (ini end_ step : string)
    (start stop td : Z) :
  get_layer self None None = Some layer →
  wms_contents self !! layer = Some meta →
  timepositions meta = Some (descriptor :: more) →
  split "/" descriptor = [ini; end_; step] →
  pd_Timedelta step = inr td →
  pd_to_datetime ini = inr start →
  pd_to_datetime end_ = inr stop →
  (0 < td)%Z →
  ((start ≤ stop)%Z →
   ∃ self' stamps,
     update_time product_layer self = (inr tt, self') ∧
     options (time_slider self')
     = strftime "%Y-%m-%dT%H:%M:%SZ" <$> stamps ∧
     value (time_slider self')
     = Some (strftime "%Y-%m-%dT%H:%M:%SZ" start) ∧
     head stamps = Some start ∧
     (∀ i x y, stamps !! i = Some x → stamps !! S i = Some y →
               y = (x + td)%Z) ∧
     (∀ i j x y, i < j → stamps !! i = Some x → stamps !! j = Some y →
                 (x < y)%Z) ∧
     (∃ z, last stamps = Some z ∧ (z ≤ stop < z + td)%Z)) ∧
  ((stop < start)%Z →
   ∃ self',
     update_time product_layer self = (inr tt, self') ∧
     time_slider self' = time_slider self ∧
     calls self' = calls self ++
       [PdTimedelta step; PdDateRange ini end_ (FreqDelta td);
        TriggerValueThrottled]).
Proof.
  intros Hlayer Hmeta Htp Hsplit Htd Hini Hend Hpos.
  rewrite (update_time_descriptor self product_layer layer meta descriptor
             more ini end_ step) by done.
  rewrite Htd. unfold Explorer.run_date_range, Explorer.pd_date_range.
  rewrite Hini, Hend. split.
  - intros Hle.
    exists (add_call TriggerValueThrottled
              (set_time_slider
                 (MkSelector
                    (strftime TIME_FORMAT <$> date_range_steps start stop td)
                    (Some (strftime TIME_FORMAT start)))
                 (add_call (PdDateRange ini end_ (FreqDelta td))
                    (add_call (PdTimedelta step) self)))),
           (date_range_steps start stop td).
    destruct (date_range_steps_cons start stop td Hpos Hle) as [rest Hrest].
    split; [by rewrite Hrest|]. split; [done|]. split; [done|].
    split; [by rewrite Hrest|]. split; [|split].
    + intros i x y. rewrite !date_range_steps_lookup by done.
      repeat case_decide; intros; simplify_eq. lia.
    + intros i j x y Hij. rewrite !date_range_steps_lookup by done.
      repeat case_decide; intros; simplify_eq. nia.
    + by apply date_range_steps_last.
  - intros Hlt. unfold date_range_steps. rewrite decide_False by lia.
    eexists. split; [done|]. split; [done|].
    simpl. by rewrite <- !app_assoc.
Qed.

End Handlers.

(** *** The handlers at work on the example explorer *)

Abbreviation demo_update_time :=
  (update_time panel_react day_Timedelta three_days_to_datetime
     ends_date_range_alias three_days_strftime).

(** A request with a time instant that the service rejects, answered on
    the retry. *)
Lemma get_url_template_retry_witness :
  ∃ r self',
    get_url_template timeless_getmap (Some "MODIS_Terra_Aerosol")
      (Some "2000-01-02T00:00:00Z") (demo_explorer "MODIS" "Terra_Aerosol")
    = (r, self') ∧
    calls self' = calls (demo_explorer "MODIS" "Terra_Aerosol") ++
      [WmsGetMap (get_map_kwargs_of (Some "MODIS_Terra_Aerosol")
                    (Some "2000-01-02T00:00:00Z"));
       WmsGetMap (pop_time (get_map_kwargs_of (Some "MODIS_Terra_Aerosol")
                              (Some "2000-01-02T00:00:00Z")))] ∧
    pop_time (get_map_kwargs_of (Some "MODIS_Terra_Aerosol")
                (Some "2000-01-02T00:00:00Z"))
    = MkGetMapKwargs [Some "MODIS_Terra_Aerosol"] "EPSG:3857" GLOBAL_BOUNDS
        (256, 256) "image/png" true None ∧
    r = inr "https://gibs.example/wms.cgi?SERVICE=WMS&bbox={XMIN}%2C{YMIN}%2C{XMAX}%2C{YMAX}&width=256".
Proof.
  exact (get_url_template_retry timeless_getmap
           (demo_explorer "MODIS" "Terra_Aerosol")
           (Some "MODIS_Terra_Aerosol") (Some "2000-01-02T00:00:00Z")
           (ServiceException "Invalid TIME") eq_refl).
Defined.

(** When the service is down the second exception is the result, after
    two requests. *)
Example get_url_template_both_fail :
  get_url_template failing_getmap (Some "MODIS_Terra_Aerosol")
    (Some "2000-01-02T00:00:00Z") (demo_explorer "MODIS" "Terra_Aerosol")
  = (inl (ServiceException "unreachable"),
     add_call (WmsGetMap (pop_time (get_map_kwargs_of
                                      (Some "MODIS_Terra_Aerosol")
                                      (Some "2000-01-02T00:00:00Z"))))
       (add_call (WmsGetMap (get_map_kwargs_of (Some "MODIS_Terra_Aerosol")
                               (Some "2000-01-02T00:00:00Z")))
          (demo_explorer "MODIS" "Terra_Aerosol"))).
Proof. reflexivity. Qed.

(** ... and [update_web_map] passes it on, with [loading] reset. *)
Example update_web_map_both_fail :
  ∃ self',
    update_web_map failing_getmap
      (set_time_slider (MkSelector ["2000-01-02T00:00:00Z"]
                          (Some "2000-01-02T00:00:00Z"))
         (demo_explorer "MODIS" "Terra_Aerosol"))
    = (inl (ServiceException "unreachable"), self') ∧
    loading self' = false ∧
    length (calls self') = 2.
Proof. eexists. by vm_compute. Qed.

(** A selection that names no layer: the request is made all the same,
    then the lookup of the metadata fails with the client's message. *)
Example update_web_map_unknown_layer :
  ∃ self',
    update_web_map timeless_getmap (demo_explorer "MODIS" "Terra_Ozone")
    = (inl (KeyError (Some "No content named MODIS_Terra_Ozone")), self') ∧
    loading self' = false ∧
    calls self'
    = [WmsGetMap (get_map_kwargs_of (Some "MODIS_Terra_Ozone") None)].
Proof. eexists. by vm_compute. Qed.



(** A period the parser rejects: the fallback frequency is "5Y". *)
Lemma update_time_parses_period_first_witness :
  ∃ r self' rest,
    demo_update_time None (demo_explorer "VIIRS" "Yearly") = (r, self') ∧
    calls self' = calls (demo_explorer "VIIRS" "Yearly") ++
                  PdTimedelta "P5Y" :: rest ∧
    (∃ rest',
       rest = PdDateRange "2000-01-01T00:00:00Z" "2000-01-03T00:00:00Z"
                (FreqAlias "5Y") :: rest' ∧
       ∀ c, c ∈ rest' → c = TriggerValueThrottled) ∧
    (∃ ps, "P5Y" = ps +:+ "5Y" ∧
           all_chars (λ c, bool_decide (c = "P"%char)) ps = true ∧
           startswith "P" "5Y" = false) ∧
    lstrip "P" "P1D" = "1D" ∧
    lstrip "P" "P5Y" = "5Y".
Proof.
  exact (update_time_parses_period_first panel_react day_Timedelta
           three_days_to_datetime ends_date_range_alias three_days_strftime
           (demo_explorer "VIIRS" "Yearly") None "VIIRS_Yearly"
           (MkLayerMeta "Yearly"
              (Some ["2000-01-01T00:00:00Z/2000-01-03T00:00:00Z/P5Y"]) None)
           "2000-01-01T00:00:00Z/2000-01-03T00:00:00Z/P5Y" []
           "2000-01-01T00:00:00Z" "2000-01-03T00:00:00Z" "P5Y"
           eq_refl eq_refl eq_refl eq_refl).
Defined.

(** C6 as stated fails for the fallback.  The period "P1D" is a count of
    days once its designator is stripped, but "P5Y", which the parser of the
    example rejects, is not: the code hands "5Y", unit included, to
    [pd.date_range] as the frequency.  And of "PP1D" the code strips both
    "P"s, where stripping a leading designator leaves "P1D". *)
Lemma update_time_fallback_counterexample :
  spec_fallback_days "P1D" = Some 1%N ∧
  day_Timedelta "P5Y" = inl (ValueError "invalid unit") ∧
  calls (demo_update_time None (demo_explorer "VIIRS" "Yearly")).2
  = [PdTimedelta "P5Y";
     PdDateRange "2000-01-01T00:00:00Z" "2000-01-03T00:00:00Z"
       (FreqAlias "5Y");
     TriggerValueThrottled] ∧
  spec_fallback_days "P5Y" = None ∧
  lstrip "P" "PP1D" = "1D" ∧
  spec_fallback_days "PP1D" = None.
Proof. repeat split; by vm_compute. Qed.

(** A period the parser accepts: the duration is the frequency. *)
Example update_time_primary_branch :
  calls (demo_update_time None (demo_explorer "MODIS" "Terra_Aerosol")).2
  = [PdTimedelta "P1D";
     PdDateRange "2000-01-01T00:00:00Z" "2000-01-03T00:00:00Z"
       (FreqDelta 86400000000000);
     TriggerValueThrottled].
Proof. reflexivity. Qed.

(** Three daily steps. *)
Lemma update_time_materialises_steps_witness :
  ∃ self' stamps,
    demo_update_time None (demo_explorer "MODIS" "Terra_Aerosol")
    = (inr tt, self') ∧
    options (time_slider self')
    = three_days_strftime "%Y-%m-%dT%H:%M:%SZ" <$> stamps ∧
    value (time_slider self') = Some "2000-01-01T00:00:00Z" ∧
    head stamps = Some 946684800000000000%Z ∧
    (∀ i x y, stamps !! i = Some x → stamps !! S i = Some y →
              y = (x + 86400000000000)%Z) ∧
    (∀ i j x y, i < j → stamps !! i = Some x → stamps !! j = Some y →
                (x < y)%Z) ∧
    (∃ z, last stamps = Some z ∧
          (z ≤ 946857600000000000 < z + 86400000000000)%Z).
Proof.
  apply (update_time_materialises_steps panel_react day_Timedelta
           three_days_to_datetime ends_date_range_alias three_days_strftime
           (demo_explorer "MODIS" "Terra_Aerosol") None "MODIS_Terra_Aerosol"
           (MkLayerMeta "Aerosol"
              (Some ["2000-01-01T00:00:00Z/2000-01-03T00:00:00Z/P1D"]) None)
           "2000-01-01T00:00:00Z/2000-01-03T00:00:00Z/P1D" []
           "2000-01-01T00:00:00Z" "2000-01-03T00:00:00Z" "P1D"
           946684800000000000%Z 946857600000000000%Z 86400000000000%Z);
    try reflexivity; lia.
Defined.

Example update_time_three_days :
  time_slider (demo_update_time None (demo_explorer "MODIS" "Terra_Aerosol")).2
  = MkSelector
      ["2000-01-01T00:00:00Z"; "2000-01-02T00:00:00Z"; "2000-01-03T00:00:00Z"]
      (Some "2000-01-01T00:00:00Z").
Proof. by vm_compute. Qed.

(** C5 as stated fails on a descriptor whose start lies after its end:
    the period parses, no timestamp is materialised, and the guard
    [if options:] leaves the slider as it was, so its options do not begin
    with the start. *)
Lemma update_time_reversed_extent_counterexample :
  day_Timedelta "P1D" = inr 86400000000000%Z ∧
  split "/" "2000-01-03T00:00:00Z/2000-01-01T00:00:00Z/P1D"
  = ["2000-01-03T00:00:00Z"; "2000-01-01T00:00:00Z"; "P1D"] ∧
  ∃ self',
    demo_update_time None (demo_explorer "MODIS" "Terra_Reversed")
    = (inr tt, self') ∧
    time_slider self' = time_slider (demo_explorer "MODIS" "Terra_Reversed") ∧
    options (time_slider self') = ["N/A"] ∧
    head (options (time_slider self')) ≠ Some "2000-01-03T00:00:00Z".
Proof.
  split; [done|]. split; [done|]. eexists. split; [by vm_compute|].
  by vm_compute.
Qed.

End Explorer.

(** ** More about [formulate_url_template] *)

Module TemplateLaws.
Import PyStr Template.

(** *** Every occurrence is replaced *)

Lemma occ_pattern_head q r :
  q ≠ EmptyString → 1 + occ q r ≤ occ q (q +:+ r).
Proof.
  destruct q as [|d q]; [done|]. intros _.
  rewrite str_app_cons, occ_cons.
  change (String d (q +:+ r)) with (String d q +:+ r).
  rewrite startswith_app. pose proof (occ_app_r (String d q) q r). lia.
Qed.

(** A stretch of text in which no match starts is copied as it is. *)
Lemma replace_prefix_free q t x r :
  q ≠ EmptyString → occ q (x +:+ r) = occ q r →
  replace q t (x +:+ r) = x +:+ replace q t r.
Proof.
  intros Hq. induction x as [|c x IH]; intros H; [done|].
  rewrite str_app_cons in *. rewrite occ_cons in H.
  pose proof (occ_app_r q x r).
  destruct (startswith q (String c (x +:+ r))) eqn:E; [lia|].
  rewrite replace_miss by done. rewrite IH by lia. done.
Qed.

(** The text before the first match holds no match. *)
Lemma replace_first_gap old s :
  old ≠ EmptyString →
  occ old s = 0 ∨
  ∃ g r, s = g +:+ old +:+ r ∧ occ old g = 0 ∧
         ∀ new, replace old new s = g +:+ new +:+ replace old new r.
Proof.
  intros Ho. induction s as [|c s IH].
  - left. by apply occ_nil.
  - destruct (startswith old (String c s)) eqn:E.
    + right. destruct (startswith_inv _ _ E) as [r Hr].
      exists EmptyString, r. split; [done|]. split; [by apply occ_nil|].
      intros new. rewrite Hr. by apply replace_hit.
    + destruct IH as [IH|(g & r & -> & Hg & IH)].
      * left. rewrite occ_cons, E. lia.
      * right. exists (String c g), r. split; [done|]. split.
        -- rewrite occ_cons, Hg.
           destruct (startswith old (String c g)) eqn:E'; [|done].
           apply (startswith_weaken _ _ (old +:+ r)) in E'.
           rewrite str_app_cons in E'. congruence.
        -- intros new. rewrite replace_miss by done. by rewrite IH.
Qed.

(** After the replacement the pattern is gone, when it cannot overlap the
    text put in its place. *)
Lemma occ_replace_self old new s :
  noverlap old new = true → occ old (replace old new s) = 0.
Proof.
  intros Hno. pose proof (noverlap_nonempty_l _ _ Hno) as Ho.
  remember (String.length s) as n eqn:Hn. revert s Hn.
  induction (lt_wf n) as [n _ IH]; intros s ->.
  destruct (replace_first_gap old s Ho) as [H|(g & r & -> & Hg & H)].
  - by rewrite replace_absent.
  - rewrite H, occ_around, Hg by done. simpl.
    eapply IH; [|done]. rewrite !str_length_app.
    destruct old; [done|]. simpl. lia.
Qed.

Lemma coordinate_gone_step B h k X :
  wf_bounds B →
  (k = h ∨ occ (value B h) X = 0) →
  occ (value B h) (replace (value B k) (placeholder k) X) = 0.
Proof.
  intros Hwf [->|H0].
  - apply occ_replace_self. by apply float_placeholder_noverlap.
  - pose proof (occ_replace_le (value B h) (value B k) (placeholder k) X
                  (is_float_str_nonempty _ (Hwf k))
                  (float_placeholder_noverlap _ k (Hwf h))). lia.
Qed.

Lemma formulate_no_coordinate B U h :
  wf_bounds B → occ (value B h) (formulate_url_template B U) = 0.
Proof.
  intros Hwf. unfold formulate_url_template.
  change (str (XMIN B)) with (value B CXMIN).
  change (str (YMIN B)) with (value B CYMIN).
  change (str (XMAX B)) with (value B CXMAX).
  change (str (YMAX B)) with (value B CYMAX).
  change "{XMIN}" with (placeholder CXMIN).
  change "{YMIN}" with (placeholder CYMIN).
  change "{XMAX}" with (placeholder CXMAX).
  change "{YMAX}" with (placeholder CYMAX).
  destruct h;
    repeat (apply coordinate_gone_step; [done|]; first [by left | right]).
Qed.

Lemma formulate_absent B U :
  wf_bounds B → (∀ h, occ (value B h) U = 0) → formulate_url_template B U = U.
Proof.
  intros Hwf H0. unfold formulate_url_template.
  rewrite (replace_absent (str (XMIN B)));
    [|apply (is_float_str_nonempty _ (Hwf CXMIN))|apply (H0 CXMIN)].
  rewrite (replace_absent (str (YMIN B)));
    [|apply (is_float_str_nonempty _ (Hwf CYMIN))|apply (H0 CYMIN)].
  rewrite (replace_absent (str (XMAX B)));
    [|apply (is_float_str_nonempty _ (Hwf CXMAX))|apply (H0 CXMAX)].
  apply replace_absent;
    [apply (is_float_str_nonempty _ (Hwf CYMAX))|apply (H0 CYMAX)].
Qed.

(** *** Marked texts with any number of coordinate positions *)

Lemma count_le_occ f h M :
  f h ≠ EmptyString → count_hole h M ≤ occ (f h) (render f M).
Proof.
  intros Hne. induction M as [|[c|k] M IH]; cbn [render count_hole]; [lia| |].
  - rewrite occ_cons. lia.
  - destruct (decide (k = h)) as [->|].
    + pose proof (occ_pattern_head (f h) (render f M) Hne). lia.
    + pose proof (occ_app_r (f h) (f k) (render f M)). lia.
Qed.

(** When the pattern occurs only at its marked positions, one replacement
    rewrites exactly those. *)
Lemma replace_marked_all f h t M :
  f h ≠ EmptyString →
  occ (f h) (render f M) = count_hole h M →
  replace (f h) t (render f M) = render (upd f h t) M.
Proof.
  intros Hne. induction M as [|[c|k] M IH]; cbn [render count_hole]; intros H.
  - by apply replace_nil.
  - pose proof (count_le_occ f h M Hne). rewrite occ_cons in H.
    destruct (startswith (f h) (String c (render f M))) eqn:E; [lia|].
    rewrite replace_miss by done. f_equal. apply IH. lia.
  - pose proof (count_le_occ f h M Hne).
    destruct (decide (k = h)) as [->|Hk].
    + pose proof (occ_pattern_head (f h) (render f M) Hne).
      rewrite replace_hit by done. unfold upd at 1. rewrite decide_True by done.
      f_equal. apply IH. lia.
    + pose proof (occ_app_r (f h) (f k) (render f M)).
      rewrite replace_prefix_free by (done || lia).
      unfold upd at 1. rewrite decide_False by done.
      f_equal. apply IH. lia.
Qed.

Lemma occ_marked_all_preserved f h k t M :
  f k ≠ EmptyString → h ≠ k → noverlap (f h) t = true →
  occ (f k) (render f M) = count_hole k M →
  occ (f h) (render f M) = count_hole h M →
  occ (f h) (render (upd f k t) M) = count_hole h M.
Proof.
  intros Hk Hne Hno Hok Hoh.
  pose proof (count_le_occ (upd f k t) h M) as Hge.
  unfold upd at 1 2 in Hge. rewrite decide_False in Hge by done.
  specialize (Hge (noverlap_nonempty_l _ _ Hno)).
  rewrite <- replace_marked_all in * by done.
  pose proof (occ_replace_le (f h) (f k) t (render f M) Hk Hno). lia.
Qed.

Lemma replace4_render_all f g M :
  (∀ h k, noverlap (f h) (g k) = true) →
  (∀ h, occ (f h) (render f M) = count_hole h M) →
  replace4 f g (render f M) = render g M.
Proof.
  intros Hno Hocc.
  assert (∀ h, f h ≠ EmptyString) as Hne
    by (intros h; apply (noverlap_nonempty_l _ (g h)), Hno).
  set (f1 := upd f CXMIN (g CXMIN)).
  set (f2 := upd f1 CYMIN (g CYMIN)).
  set (f3 := upd f2 CXMAX (g CXMAX)).
  assert (∀ h, h ≠ CXMIN → occ (f1 h) (render f1 M) = count_hole h M) as H1.
  { intros h Hh. unfold f1 at 1, upd at 1. rewrite decide_False by done.
    apply occ_marked_all_preserved; auto. }
  assert (∀ h, h ≠ CXMIN → h ≠ CYMIN →
               occ (f2 h) (render f2 M) = count_hole h M) as H2.
  { intros h Hh Hh'. unfold f2 at 1, upd at 1. rewrite decide_False by done.
    apply occ_marked_all_preserved; auto.
    - apply Hne.
    - unfold f1, upd. rewrite decide_False by done. auto. }
  assert (occ (f3 CYMAX) (render f3 M) = count_hole CYMAX M) as H3.
  { unfold f3 at 1, upd at 1. rewrite decide_False by done.
    apply occ_marked_all_preserved; auto.
    - apply Hne.
    - unfold f2, f1, upd. rewrite !decide_False by done. auto. }
  unfold replace4.
  rewrite (replace_marked_all f CXMIN) by auto. fold f1.
  change (f CYMIN) with (f1 CYMIN).
  rewrite (replace_marked_all f1 CYMIN) by (auto; apply Hne). fold f2.
  change (f CXMAX) with (f2 CXMAX).
  rewrite (replace_marked_all f2 CXMAX) by (auto; apply Hne). fold f3.
  change (f CYMAX) with (f3 CYMAX).
  rewrite (replace_marked_all f3 CYMAX) by (auto; apply Hne).
  apply render_ext. by intros [].
Qed.

(** X1: a concrete URL in which the coordinate strings of [B] occur
    exactly at its marked coordinate positions, however many of them there
    are and in whatever order (a bounding box given twice, a coordinate that
    is missing), is turned into the same text with the placeholders at those
    positions and every other character unchanged. *)
Theorem formulate_url_template_marked (B : Bounds) (M : list token) :
  wf_bounds B →
  (∀ h, occ (value B h) (render (value B) M) = count_hole h M) →
  formulate_url_template B (render (value B) M) = render placeholder M.
Proof.
  intros Hwf Hocc.
  change (formulate_url_template B (render (value B) M))
    with (replace4 (value B) placeholder (render (value B) M)).
  apply replace4_render_all; [|done].
  intros h k. by apply float_placeholder_noverlap.
Qed.

(** A request that carries the bounding box twice and no [YMAX] of its
    own elsewhere. *)
Lemma formulate_url_template_marked_witness :
  formulate_url_template GLOBAL_BOUNDS
    "a=-20037507.5394,1638517.4448,20037260.9187&b=20037260.9187,-20037507.5394"
  = "a={XMIN},{YMIN},{XMAX}&b={XMAX},{XMIN}".
Proof.
  apply (formulate_url_template_marked GLOBAL_BOUNDS
           [Lit "a"; Lit "="; Hole CXMIN; Lit ","; Hole CYMIN; Lit ",";
            Hole CXMAX; Lit "&"; Lit "b"; Lit "="; Hole CXMAX; Lit ",";
            Hole CXMIN]%char).
  - by intros [].
  - by intros []; vm_compute.
Defined.

(** X2: whatever the input, no coordinate string of [B] is left in the
    template: every occurrence has been replaced. *)
Theorem formulate_url_template_replaces_all (B : Bounds) (U : string)
    (h : coord) :
  wf_bounds B → occ (value B h) (formulate_url_template B U) = 0.
Proof. apply formulate_no_coordinate. Qed.

Lemma formulate_url_template_replaces_all_witness :
  occ "20037260.9187"
    (formulate_url_template GLOBAL_BOUNDS
       "x=20037260.9187&y=20037260.918720037260.9187") = 0.
Proof.
  apply (formulate_url_template_replaces_all GLOBAL_BOUNDS _ CXMAX).
  by intros [].
Defined.

(** X3: [formulate_url_template] is idempotent: applied to a template it
    has produced, it returns that template. *)
Theorem formulate_url_template_idempotent (B : Bounds) (U : string) :
  wf_bounds B →
  formulate_url_template B (formulate_url_template B U)
  = formulate_url_template B U.
Proof.
  intros Hwf. apply formulate_absent; [done|].
  intros h. by apply formulate_no_coordinate.
Qed.

Lemma formulate_url_template_idempotent_witness :
  formulate_url_template GLOBAL_BOUNDS
    (formulate_url_template GLOBAL_BOUNDS
       "bbox=-20037507.5394%2C1638517.4448%2C20037260.9187%2C7714669.3946")
  = formulate_url_template GLOBAL_BOUNDS
      "bbox=-20037507.5394%2C1638517.4448%2C20037260.9187%2C7714669.3946".
Proof.
  apply (formulate_url_template_idempotent GLOBAL_BOUNDS). by intros [].
Defined.

(** X4: the input is returned unchanged exactly when none of the four
    coordinate strings occurs in it. *)
Theorem formulate_url_template_unchanged_iff (B : Bounds) (U : string) :
  wf_bounds B →
  formulate_url_template B U = U ↔ ∀ h, occ (value B h) U = 0.
Proof.
  intros Hwf. split.
  - intros E h. rewrite <- E. by apply formulate_no_coordinate.
  - by apply formulate_absent.
Qed.

Lemma formulate_url_template_unchanged_iff_witness :
  formulate_url_template GLOBAL_BOUNDS "bbox=-180.0%2C-90.0%2C180.0%2C90.0"
  = "bbox=-180.0%2C-90.0%2C180.0%2C90.0"
  ↔ ∀ h, occ (value GLOBAL_BOUNDS h) "bbox=-180.0%2C-90.0%2C180.0%2C90.0" = 0.
Proof.
  apply (formulate_url_template_unchanged_iff GLOBAL_BOUNDS). by intros [].
Defined.

End TemplateLaws.

(** ** More about the catalog *)

Module CatalogLaws.
Import PyStr Catalog.

Lemma elem_of_product_options (cat : gmap string (list string)) p :
  p ∈ product_options cat ↔ is_Some (cat !! p).
Proof.
  unfold product_options. rewrite elem_of_sorted, list_elem_of_fmap. split.
  - intros ([k b] & -> & H%elem_of_map_to_list). simpl. by eexists.
  - intros [b Hb]. exists (p, b). split; [done|]. by apply elem_of_map_to_list.
Qed.

Lemma elem_of_bucket_of layers p x :
  x ∈ bucket_of layers p ↔ ∃ layer, layer ∈ layers ∧ classify layer = (p, x).
Proof.
  unfold bucket_of. rewrite list_elem_of_fmap. split.
  - intros ([q y] & -> & [Hq Hin]%list_elem_of_filter). simpl in *. subst q.
    apply list_elem_of_fmap in Hin as (layer & E & Hl). eauto.
  - intros (layer & Hl & E). exists (p, x). split; [done|].
    apply list_elem_of_filter. split; [done|].
    rewrite <- E. by apply list_elem_of_fmap_2.
Qed.

Lemma bucket_of_nonempty layers p :
  bucket_of layers p ≠ [] ↔ ∃ layer, layer ∈ layers ∧ (classify layer).1 = p.
Proof.
  split.
  - intros H. destruct (bucket_of layers p) as [|x b] eqn:E; [done|].
    assert (x ∈ bucket_of layers p) as Hx by (rewrite E; left).
    apply elem_of_bucket_of in Hx as (layer & Hl & Hc).
    exists layer. by rewrite Hc.
  - intros (layer & Hl & <-) E.
    pose proof (classify_in_bucket layer layers Hl) as H.
    rewrite E in H. by apply not_elem_of_nil in H.
Qed.

Lemma sorted_sorted xs : Sorted String.le (sorted xs).
Proof. apply Sorted_merge_sort, _. Qed.

Lemma sorted_of_sorted xs : Sorted String.le xs → sorted xs = xs.
Proof.
  intros H. apply (Sorted_unique String.le); [apply sorted_sorted|done|].
  apply merge_sort_Permutation.
Qed.

(** X5: the products offered by the product selector are exactly
    "Miscellaneous" and the product prefixes of the identifiers that contain
    an underscore; the list is sorted and names no product twice. *)
Theorem product_options_exact (contents : list string) :
  (∀ p, p ∈ product_options (build_products_layers contents) ↔
        p = MISCELLANEOUS ∨
        ∃ layer, layer ∈ contents ∧ (classify layer).1 = p) ∧
  Sorted String.le (product_options (build_products_layers contents)) ∧
  NoDup (product_options (build_products_layers contents)).
Proof.
  split; [|split].
  - intros p. rewrite elem_of_product_options, build_products_layers_lookup.
    assert (bucket_of (sorted contents) p ≠ [] ↔
            ∃ layer, layer ∈ contents ∧ (classify layer).1 = p) as Hb.
    { rewrite bucket_of_nonempty. by setoid_rewrite elem_of_sorted. }
    rewrite <- Hb. by case_decide as H; split.
  - apply sorted_sorted.
  - unfold product_options, sorted. rewrite merge_sort_Permutation.
    apply NoDup_fst_map_to_list.
Qed.

(** X6: a product other than "Miscellaneous" never has an empty layer
    set: only the seeded bucket can be empty. *)
Theorem only_miscellaneous_can_be_empty (contents : list string) (p : string)
    (bucket : list string) :
  build_products_layers contents !! p = Some bucket →
  p ≠ MISCELLANEOUS →
  bucket ≠ [].
Proof.
  rewrite build_products_layers_lookup. case_decide as H; [|done].
  intros [= E] Hp ->. destruct H as [->|H]; [done|]. by rewrite E in H.
Qed.

Lemma only_miscellaneous_can_be_empty_witness :
  ["Population_Density_2000"; "Population_Density_2020"] ≠ [].
Proof.
  apply (only_miscellaneous_can_be_empty
           ["GPW_Population_Density_2020"; "Water Bodies";
            "GPW_Population_Density_2000"] "GPW").
  - by vm_compute.
  - done.
Defined.

(** X7: the catalog does not depend on the order in which the
    capabilities document lists the identifiers. *)
Theorem build_products_layers_permutation (contents contents' : list string) :
  contents ≡ₚ contents' →
  build_products_layers contents = build_products_layers contents'.
Proof.
  intros Hp. unfold build_products_layers. f_equal.
  apply (Sorted_unique String.le); [apply sorted_sorted..|].
  unfold sorted. by rewrite !merge_sort_Permutation.
Qed.

Lemma build_products_layers_permutation_witness :
  build_products_layers ["Water Bodies"; "GPW_Population_Density_2020";
                         "GPW_Population_Density_2000"]
  = build_products_layers ["GPW_Population_Density_2000";
                           "GPW_Population_Density_2020"; "Water Bodies"].
Proof.
  apply build_products_layers_permutation.
  exact (reverse_Permutation ["GPW_Population_Density_2000";
                              "GPW_Population_Density_2020"; "Water Bodies"]).
Defined.

(** *** The order inside a bucket *)

Lemma compare_app_l p x y :
  String.compare (p +:+ x) (p +:+ y) = String.compare x y.
Proof.
  induction p as [|c p IH]; [done|]. rewrite !str_app_cons. simpl.
  assert (Ascii.compare c c = Eq) as ->; [|done].
  unfold Ascii.compare. apply N.compare_refl.
Qed.

Lemma le_app_l p x y : String.le (p +:+ x) (p +:+ y) ↔ String.le x y.
Proof. unfold String.le, String.leb. by rewrite compare_app_l. Qed.

Lemma classify_with_product layer p x :
  classify layer = (p, x) → p ≠ MISCELLANEOUS →
  layer = p +:+ String "_" x.
Proof.
  unfold classify. destruct (mem "_" layer) eqn:E; intros [= <- <-] Hp; [|done].
  by apply before_after.
Qed.

Lemma bucket_of_strongly_sorted layers p :
  p ≠ MISCELLANEOUS →
  StronglySorted String.le layers → StronglySorted String.le (bucket_of layers p).
Proof.
  intros Hp. induction 1 as [|layer layers Hs IH Hall].
  - constructor.
  - rewrite bucket_of_cons. case_decide as Hc; [|done].
    constructor; [done|]. apply Forall_forall.
    intros y (layer' & Hin & Hc')%elem_of_bucket_of.
    rewrite Forall_forall in Hall. specialize (Hall layer' Hin).
    rewrite (classify_with_product layer p (classify layer).2) in Hall;
      [|by rewrite Hc; destruct (classify layer)|done].
    rewrite (classify_with_product layer' p y Hc' Hp) in Hall.
    apply le_app_l in Hall.
    by apply (le_app_l (String "_" EmptyString)) in Hall.
Qed.

Lemma bucket_of_NoDup layers p :
  p ≠ MISCELLANEOUS → NoDup layers → NoDup (bucket_of layers p).
Proof.
  intros Hp. induction 1 as [|layer layers Hnotin Hnd IH].
  - constructor.
  - rewrite bucket_of_cons. case_decide as Hc; [|done].
    constructor; [|done].
    intros (layer' & Hin & Hc')%elem_of_bucket_of.
    apply Hnotin.
    rewrite (classify_with_product layer p (classify layer).2);
      [|by rewrite Hc; destruct (classify layer)|done].
    by rewrite <- (classify_with_product layer' p _ Hc' Hp).
Qed.

(** X8: the layer set of a product other than "Miscellaneous" is already
    in sorted order when the catalog is built, so the [sorted] that
    [update_layers] applies to it changes nothing; and it names no layer
    twice when the capabilities document names no identifier twice. *)
Theorem product_bucket_sorted (contents : list string) (p : string)
    (bucket : list string) :
  p ≠ MISCELLANEOUS →
  build_products_layers contents !! p = Some bucket →
  StronglySorted String.le bucket ∧
  sorted bucket = bucket ∧
  (NoDup contents → NoDup bucket).
Proof.
  intros Hp. rewrite build_products_layers_lookup.
  case_decide; [|done]. intros [= <-].
  assert (StronglySorted String.le (bucket_of (sorted contents) p)) as Hs.
  { apply bucket_of_strongly_sorted; [done|].
    apply StronglySorted_merge_sort; apply _. }
  split; [done|]. split.
  - by apply sorted_of_sorted, StronglySorted_Sorted.
  - intros Hnd. apply bucket_of_NoDup; [done|].
    unfold sorted. by rewrite merge_sort_Permutation.
Qed.

Lemma product_bucket_sorted_witness :
  StronglySorted String.le ["Terra_Aerosol"; "Terra_Reversed"] ∧
  sorted ["Terra_Aerosol"; "Terra_Reversed"] = ["Terra_Aerosol"; "Terra_Reversed"] ∧
  (NoDup ["MODIS_Terra_Reversed"; "GPW_Population_Density_2000";
          "MODIS_Terra_Aerosol"] →
   NoDup ["Terra_Aerosol"; "Terra_Reversed"]).
Proof.
  apply (product_bucket_sorted
           ["MODIS_Terra_Reversed"; "GPW_Population_Density_2000";
            "MODIS_Terra_Aerosol"] "MODIS"); [done|by vm_compute].
Defined.

(** The "Miscellaneous" bucket is different: it also receives the layer
    names of identifiers that begin with "Miscellaneous_", out of order and
    possibly a second time. *)
Example miscellaneous_bucket_unsorted :
  build_products_layers ["a"; "b"; "Miscellaneous_b"] !! MISCELLANEOUS
  = Some ["b"; "a"; "b"].
Proof. by vm_compute. Qed.

End CatalogLaws.

(** ** More about the explorer *)

Module ExplorerLaws.
Import PyStr Template Catalog Explorer CatalogLaws TemplateLaws.

(** [BASE_URL]. *)
Definition BASE_URL : string :=
  "https://gibs.earthdata.nasa.gov/wms/epsg3857/best/wms.cgi?SERVICE=WMS".

Section Construction.

(** The value a widget holds after its options are assigned, as in
    [Explorer]; a widget created with options starts from no value. *)
Variable react : list string → option string → option string.

(** [WebMapService(url)]: the layers of the capabilities document with
    their metadata, or the exception of the request. *)
Variable WebMapService : string → exn + gmap string LayerMeta.

(** [__init__(self)], up to the widgets the handlers use. *)
Definition init : exn + State :=
  match WebMapService BASE_URL with
  | inl e => inl e
  | inr contents =>
      let products_layers := build_products_layers (map_to_list contents).*1 in
      let product_select :=
        assign_options react (product_options products_layers)
          (MkSelector [] None) in
      match value product_select ≫= (λ p, products_layers !! p) with
      | None => inl (KeyError (value product_select))
      | Some product_layers =>
          inr (MkState contents products_layers product_select
                 (assign_options react (sorted product_layers)
                    (MkSelector [] None))
                 (MkSelector [] None) None false [])
      end
  end.

End Construction.

(** [get_web_map(product, product_layer)] of the comparison cells; the
    result stands for the [gv.WMTS] element: its URL template and title. *)
Definition get_web_map (wms_getmap : nat → GetMapKwargs → exn + string)
    (product product_layer : option string) : M (string * option string) :=
  do explorer <- get;
  do url_template <- get_url_template wms_getmap
                       (get_layer explorer product product_layer) None;
  ret (url_template, product_layer).

(** *** [get_layer] and the catalog *)

Lemma str_app_longer x s : x ≠ EmptyString → s ≠ x +:+ s.
Proof.
  intros Hx E. apply (f_equal String.length) in E.
  rewrite str_length_app in E. destruct x; [done|]. simpl in E. lia.
Qed.

(** X9: [get_layer] undoes the split of [__init__]: for an identifier
    whose product and layer name are both non-empty, joining the two gives
    the identifier back, except for an identifier that begins with
    "Miscellaneous_", whose layer name is returned unqualified. *)
Theorem get_layer_inverts_classify (self : State) (layer : string) :
  (classify layer).1 ≠ EmptyString →
  (classify layer).2 ≠ EmptyString →
  get_layer self (Some (classify layer).1) (Some (classify layer).2) = Some layer
  ↔ ¬ (mem "_" layer = true ∧ (classify layer).1 = MISCELLANEOUS).
Proof.
  intros Hp Hl. unfold get_layer, py_or.
  destruct (decide ((classify layer).1 = EmptyString)); [done|].
  destruct (decide ((classify layer).2 = EmptyString)); [done|].
  destruct (mem "_" layer) eqn:E.
  - destruct (decide ((classify layer).1 = MISCELLANEOUS)) as [Hm|Hm].
    + rewrite decide_True by congruence. split; [|intros []; done].
      intros [= Heq]. exfalso. revert Heq.
      rewrite (proj1 (before_after "_" layer E)) at 2.
      unfold classify. rewrite E. simpl.
      change (String "_" (after "_" layer)) with ("_" +:+ after "_" layer).
      rewrite str_app_assoc. apply str_app_longer.
      by destruct (before "_" layer).
    + rewrite decide_False by congruence. split; [by intros _ []|]. intros _.
      f_equal. simpl. symmetry.
      apply classify_with_product; [by destruct (classify layer)|done].
  - unfold classify in *. rewrite E in *. simpl in *.
    split; [by intros _ []|done].
Qed.

Lemma get_layer_inverts_classify_witness :
  get_layer (demo_explorer "MODIS" "Terra_Aerosol")
    (Some (classify "GPW_Population_Density_2000").1)
    (Some (classify "GPW_Population_Density_2000").2)
  = Some "GPW_Population_Density_2000"
  ↔ ¬ (mem "_" "GPW_Population_Density_2000" = true ∧
       (classify "GPW_Population_Density_2000").1 = MISCELLANEOUS).
Proof.
  by apply (get_layer_inverts_classify (demo_explorer "MODIS" "Terra_Aerosol")
              "GPW_Population_Density_2000").
Defined.

(** X10: when the catalog was built from [contents], no identifier begins
    with "Miscellaneous_", and the two selectors hold a product of the
    catalog and a layer of that product, [get_layer()] is an identifier of
    [contents]: the one that was split into this product and layer. *)
Theorem get_layer_selection_in_contents (self : State)
    (contents : list string) (p l : string) (bucket : list string) :
  products_layers self = build_products_layers contents →
  (∀ layer, layer ∈ contents → mem "_" layer = true →
            (classify layer).1 ≠ MISCELLANEOUS) →
  value (product_select self) = Some p →
  value (layer_select self) = Some l →
  products_layers self !! p = Some bucket →
  l ∈ bucket →
  ∃ layer, get_layer self None None = Some layer ∧
           layer ∈ contents ∧ classify layer = (p, l).
Proof.
  intros Hcat Hmisc Hp Hl Hb Hin. rewrite Hcat in Hb.
  rewrite build_products_layers_lookup in Hb.
  case_decide; [|done]. injection Hb as <-.
  apply elem_of_bucket_of in Hin as (layer & Hlayer & Hc).
  rewrite elem_of_sorted in Hlayer.
  exists layer. split; [|done].
  unfold get_layer, py_or. rewrite Hp, Hl.
  destruct (decide (p = MISCELLANEOUS)) as [->|Hne].
  - rewrite decide_True by done.
    destruct (mem "_" layer) eqn:E.
    + exfalso. apply (Hmisc layer Hlayer E). by rewrite Hc.
    + unfold classify in Hc. rewrite E in Hc. congruence.
  - rewrite decide_False by congruence. f_equal. simpl. symmetry.
    by apply classify_with_product.
Qed.

Lemma get_layer_selection_in_contents_witness :
  ∃ layer, get_layer (demo_explorer "MODIS" "Terra_Aerosol") None None
           = Some layer ∧
           layer ∈ demo_layers ∧ classify layer = ("MODIS", "Terra_Aerosol").
Proof.
  apply (get_layer_selection_in_contents (demo_explorer "MODIS" "Terra_Aerosol")
           demo_layers "MODIS" "Terra_Aerosol"
           ["Terra_Aerosol"; "Terra_Reversed"]).
  - done.
  - intros layer H _. unfold demo_layers in H.
    repeat (apply elem_of_cons in H as [->|H]); [by vm_compute..|].
    by apply not_elem_of_nil in H.
  - done.
  - done.
  - by vm_compute.
  - left.
Defined.

(** *** The handlers *)

Lemma length_split sep s :
  length (split sep s) = S (occ (String sep EmptyString) s).
Proof.
  induction s as [|c s IH]; [done|].
  rewrite occ_cons. cbn [split startswith].
  destruct (decide (c = sep)) as [->|Hne].
  - rewrite decide_True by done. simpl. by rewrite IH.
  - rewrite decide_False by congruence.
    destruct (split sep s); simpl in *; lia.
Qed.

Section Handlers.

Variable react : list string → option string → option string.
Variable wms_getmap : nat → GetMapKwargs → exn + string.
Variable pd_Timedelta : string → exn + Z.
Variable pd_to_datetime : string → exn + Z.
Variable pd_date_range_alias : Z → Z → string → exn + list Z.
Variable strftime : string → Z → string.

Abbreviation update_time :=
  (update_time react pd_Timedelta pd_to_datetime pd_date_range_alias strftime).

(** X11: [update_layers] succeeds exactly for the products the product
    selector offers; it then assigns the sorted layer set of the product to
    the layer selector and changes nothing else.  For any other product it
    raises [KeyError] and leaves the explorer as it was. *)
Theorem update_layers_offered (self : State) (product : string) :
  (product ∈ product_options (products_layers self) →
   ∃ bucket,
     products_layers self !! product = Some bucket ∧
     update_layers react product self =
       (inr tt,
        set_layer_select
          (MkSelector (sorted bucket)
             (react (sorted bucket) (value (layer_select self)))) self)) ∧
  (product ∉ product_options (products_layers self) →
   update_layers react product self = (inl (KeyError (Some product)), self)).
Proof.
  rewrite elem_of_product_options. unfold update_layers, bind, get. split.
  - intros [bucket Hb]. exists bucket. by rewrite Hb.
  - intros Hnone. destruct (products_layers self !! product) eqn:E; [|done].
    destruct Hnone. by eexists.
Qed.

(** X12: whatever [update_time] does, it leaves the capabilities, the
    catalog, the two selectors, the legend pane and the loading flag alone and
    only adds to the log of outgoing calls.  The refresh trigger is sent
    exactly when the handler completes, as its last call; when the handler
    raises, no refresh is sent and the time slider is as it was. *)
Theorem update_time_effects (self : State) (product_layer : option string)
    (r : exn + unit) (self' : State) :
  update_time product_layer self = (r, self') →
  wms_contents self' = wms_contents self ∧
  products_layers self' = products_layers self ∧
  product_select self' = product_select self ∧
  layer_select self' = layer_select self ∧
  image_pane self' = image_pane self ∧
  loading self' = loading self ∧
  ∃ new,
    calls self' = calls self ++ new ∧
    (r = inr tt → last new = Some TriggerValueThrottled) ∧
    (∀ i, new !! i = Some TriggerValueThrottled →
          r = inr tt ∧ S i = length new) ∧
    (∀ e, r = inl e → time_slider self' = time_slider self).
Proof.
  unfold update_time, Explorer.update_time, period_freq, refresh_layer,
    try_except, calling, modify, raise, get, ret, bind.
  intros H. repeat case_match; simplify_eq/=;
    repeat (split; [done|]); rewrite <- ?app_assoc;
    (eexists; split; [first [reflexivity | symmetry; apply app_nil_r]|]);
    (split; [by intros|]); (split; [|by intros]);
    intros i Hi; repeat (destruct i as [|i]; simplify_eq/=; try done).
Qed.

(** X13: [update_time] never installs an empty list of time options:
    the slider is either left as it was, or given the single option "N/A", or
    given a non-empty list of timestamps with the first one as its value. *)
Theorem update_time_slider_outcomes (self : State)
    (product_layer : option string) (r : exn + unit) (self' : State) :
  update_time product_layer self = (r, self') →
  (time_slider self' = time_slider self ∨
   time_slider self'
   = MkSelector ["N/A"] (react ["N/A"] (value (time_slider self))) ∨
   ∃ first rest, time_slider self' = MkSelector (first :: rest) (Some first)) ∧
  (options (time_slider self) ≠ [] → options (time_slider self') ≠ []).
Proof.
  unfold update_time, Explorer.update_time, period_freq, refresh_layer,
    try_except, calling, modify, raise, get, ret, bind.
  intros H. repeat case_match; simplify_eq/=; (split; [|done]); eauto.
Qed.

(** X14: the two errors [update_time] raises before pandas is consulted
    leave the explorer untouched, without any outgoing call: [KeyError] when
    the qualified layer is not a key of the capabilities, and [ValueError]
    when the first time descriptor does not have exactly two slashes. *)
Theorem update_time_fails_early (self : State) (product_layer : option string) :
  (get_layer self None None ≫= (λ l, wms_contents self !! l) = None →
   update_time product_layer self
   = (inl (KeyError (get_layer self None None)), self)) ∧
  (∀ layer meta descriptor more,
     get_layer self None None = Some layer →
     wms_contents self !! layer = Some meta →
     timepositions meta = Some (descriptor :: more) →
     occ "/" descriptor ≠ 2 →
     ∃ msg, update_time product_layer self = (inl (ValueError msg), self)).
Proof.
  unfold update_time, Explorer.update_time, bind, get, raise. split.
  - by intros ->.
  - intros layer meta descriptor more -> Hmeta Htp Hocc. simpl.
    rewrite Hmeta, Htp.
    pose proof (length_split "/" descriptor) as Hlen.
    destruct (split "/" descriptor) as [|? [|? [|? [|? ?]]]]; simpl in *;
      try by eexists.
    lia.
Qed.

(** X15: in an explorer whose catalog was built by [__init__], selecting a
    product whose layer set is empty empties the layer selector; when the
    selector then holds no value, the [update_time] that follows raises
    [KeyError(None)] and changes nothing. *)
Theorem update_time_after_empty_product (self : State)
    (contents : list string) (p : string) (product_layer : option string) :
  products_layers self = build_products_layers contents →
  value (product_select self) = Some p →
  products_layers self !! p = Some [] →
  react [] (value (layer_select self)) = None →
  ∃ self',
    update_layers react p self = (inr tt, self') ∧
    layer_select self' = MkSelector [] None ∧
    update_time product_layer self' = (inl (KeyError None), self').
Proof.
  intros Hcat Hp Hb Hreact.
  assert (p = MISCELLANEOUS) as ->.
  { rewrite Hcat, build_products_layers_lookup in Hb.
    case_decide as H; [|done]. injection Hb as E.
    destruct H as [->|H]; [done|]. by rewrite E in H. }
  eexists. unfold update_layers, bind, get, modify. rewrite Hb. split; [done|].
  assert (sorted [] = []) as -> by done.
  unfold assign_options. rewrite Hreact. split; [done|].
  unfold update_time, Explorer.update_time, bind, get, raise, get_layer, py_or.
  simpl. rewrite Hp. by rewrite decide_True.
Qed.

(** X16: [get_url_template] changes nothing of the explorer but the log
    of calls, to which it adds one GetMap request when that request is
    answered and two (the second without the [time] key) when it is not; a
    template it returns holds none of the four coordinate strings. *)
Theorem get_url_template_effects (self : State) (layer time : option string)
    (r : exn + string) (self' : State) :
  get_url_template wms_getmap layer time self = (r, self') →
  wms_contents self' = wms_contents self ∧
  products_layers self' = products_layers self ∧
  product_select self' = product_select self ∧
  layer_select self' = layer_select self ∧
  time_slider self' = time_slider self ∧
  image_pane self' = image_pane self ∧
  loading self' = loading self ∧
  ((∃ url,
      wms_getmap (length (calls self)) (get_map_kwargs_of layer time) = inr url ∧
      r = inr (formulate_url_template GLOBAL_BOUNDS url) ∧
      calls self' = calls self ++ [WmsGetMap (get_map_kwargs_of layer time)]) ∨
   (∃ e,
      wms_getmap (length (calls self)) (get_map_kwargs_of layer time) = inl e ∧
      calls self' = calls self ++
        [WmsGetMap (get_map_kwargs_of layer time);
         WmsGetMap (pop_time (get_map_kwargs_of layer time))])) ∧
  (∀ t h, r = inr t → occ (Template.value GLOBAL_BOUNDS h) t = 0).
Proof.
  unfold get_url_template, try_except, calling, ret, bind.
  intros H.
  assert (wf_bounds GLOBAL_BOUNDS) as Hwf by by intros [].
  repeat case_match; simplify_eq/=; repeat (split; [done|]);
    rewrite <- ?app_assoc; (split; [eauto|]); intros t h [= <-];
    match goal with
    | H : wms_getmap _ _ = inr ?url |- _ =>
        exact (formulate_no_coordinate GLOBAL_BOUNDS url h Hwf)
    end.
Qed.

(** X17: [update_web_map] always ends with the loading flag reset, never
    touches the catalog, the selectors or the time slider, and updates the
    legend pane only when it succeeds.  It sends one or two GetMap requests,
    all for the layer [get_layer()] names, and none of them carries the
    sentinel "N/A" as its time. *)
Theorem update_web_map_effects (self : State) (r : exn + string * string)
    (self' : State) :
  update_web_map wms_getmap self = (r, self') →
  loading self' = false ∧
  wms_contents self' = wms_contents self ∧
  products_layers self' = products_layers self ∧
  product_select self' = product_select self ∧
  layer_select self' = layer_select self ∧
  time_slider self' = time_slider self ∧
  (∀ e, r = inl e → image_pane self' = image_pane self) ∧
  ∃ new,
    calls self' = calls self ++ new ∧
    1 ≤ length new ≤ 2 ∧
    ∀ c, c ∈ new →
      ∃ kw, c = WmsGetMap kw ∧
            kw_layers kw = [get_layer self None None] ∧
            kw_time kw ≠ Some (Some "N/A").
Proof.
  unfold update_web_map, try_finally, get_url_template, try_except, calling,
    modify, raise, get, ret, bind.
  intros H. repeat case_match; simplify_eq/=; repeat (split; [done|]);
    rewrite <- ?app_assoc; (eexists; split; [reflexivity|]);
    (split; [simpl; lia|]); intros c Hc;
    repeat (apply elem_of_cons in Hc as [->|Hc]);
    try (by apply not_elem_of_nil in Hc);
    (eexists; split; [reflexivity|]); (split; [done|]); simpl; congruence.
Qed.

(** X18: when the selected layer is a key of the capabilities and the
    first GetMap request is answered, [update_web_map] sends that one
    request, with the slider's value as [time] ([None] when the slider shows
    "N/A"), returns the template made from the answer together with the
    layer's title, and shows the layer's legend. *)
Theorem update_web_map_success (self : State) (layer url : string)
    (meta : LayerMeta) :
  get_layer self None None = Some layer →
  wms_contents self !! layer = Some meta →
  wms_getmap (length (calls self))
    (get_map_kwargs_of (Some layer)
       (if decide (value (time_slider self) = Some "N/A") then None
        else value (time_slider self))) = inr url →
  ∃ self',
    update_web_map wms_getmap self
    = (inr (formulate_url_template GLOBAL_BOUNDS url, title meta), self') ∧
    image_pane self' = legend meta ∧
    loading self' = false ∧
    calls self' = calls self ++
      [WmsGetMap
         (get_map_kwargs_of (Some layer)
            (if decide (value (time_slider self) = Some "N/A") then None
             else value (time_slider self)))].
Proof.
  intros Hlayer Hmeta Hurl. eexists.
  unfold update_web_map, try_finally, get_url_template, try_except, calling,
    modify, raise, get, ret, bind.
  cbn [set_loading calls time_slider].
  replace (get_layer (set_loading true self) None None) with (Some layer)
    by (by rewrite <- Hlayer).
  cbn [wms_contents set_loading]. rewrite Hurl. simpl. rewrite Hmeta.
  done.
Qed.

End Handlers.

(** *** Construction and the comparison maps *)

(** X19: when the capabilities request is answered and the selectors hold
    one of their options once these are assigned, [__init__] raises nothing:
    the product selector offers the products of the catalog and holds one of
    them, the layer selector offers the sorted layer set of that product and
    holds one of its layers unless the set is empty, the time slider is
    empty and no call has been made. *)
Theorem init_consistent
    (react : list string → option string → option string)
    (WebMapService : string → exn + gmap string LayerMeta)
    (contents : gmap string LayerMeta) :
  keeps_value_in_options react →
  WebMapService BASE_URL = inr contents →
  ∃ self p bucket,
    init react WebMapService = inr self ∧
    wms_contents self = contents ∧
    products_layers self = build_products_layers (map_to_list contents).*1 ∧
    options (product_select self) = product_options (products_layers self) ∧
    value (product_select self) = Some p ∧
    products_layers self !! p = Some bucket ∧
    options (layer_select self) = sorted bucket ∧
    (bucket ≠ [] → ∃ l, value (layer_select self) = Some l ∧ l ∈ bucket) ∧
    time_slider self = MkSelector [] None ∧
    calls self = [].
Proof.
  intros Hlaw Hwms. unfold init. rewrite Hwms.
  set (cat := build_products_layers (map_to_list contents).*1).
  assert (MISCELLANEOUS ∈ product_options cat) as Hmisc.
  { apply elem_of_product_options. unfold cat.
    rewrite build_products_layers_lookup, decide_True by by left.
    by eexists. }
  destruct (Hlaw (product_options cat) None) as (p & Hp & Hin).
  { intros E. rewrite E in Hmisc. by apply not_elem_of_nil in Hmisc. }
  apply elem_of_product_options in Hin as [bucket Hb].
  unfold assign_options. cbn [value]. rewrite Hp. cbn [mbind option_bind].
  rewrite Hb. eexists _, p, bucket. split; [done|].
  cbn [wms_contents products_layers product_select layer_select time_slider
       calls options value].
  repeat (split; [done|]). split; [|done].
  intros Hne. destruct (Hlaw (sorted bucket) None) as (l & Hl & Hlin).
  { intros E. apply Hne, Permutation_nil_r.
    unfold sorted in E. by rewrite <- E, merge_sort_Permutation. }
  exists l. split; [done|]. by apply elem_of_sorted.
Qed.

Lemma init_consistent_witness :
  ∃ self p bucket,
    init panel_react (λ _, inr demo_contents) = inr self ∧
    wms_contents self = demo_contents ∧
    products_layers self
    = build_products_layers (map_to_list demo_contents).*1 ∧
    options (product_select self) = product_options (products_layers self) ∧
    value (product_select self) = Some p ∧
    products_layers self !! p = Some bucket ∧
    options (layer_select self) = sorted bucket ∧
    (bucket ≠ [] → ∃ l, value (layer_select self) = Some l ∧ l ∈ bucket) ∧
    time_slider self = MkSelector [] None ∧
    calls self = [].
Proof.
  apply (init_consistent panel_react (λ _, inr demo_contents) demo_contents).
  - apply panel_react_law.
  - reflexivity.
Defined.

(** X20: for a non-empty product and layer name, [get_web_map] sends one
    GetMap request for the qualified layer ([L] itself under "Miscellaneous",
    [P + "_" + L] otherwise) with [time=None], whatever the explorer has
    selected; when the request is answered the map has the template made
    from the answer and the layer name as its title. *)
Theorem get_web_map_request (wms_getmap : nat → GetMapKwargs → exn + string)
    (explorer : State) (P L url : string) :
  P ≠ EmptyString → L ≠ EmptyString →
  wms_getmap (length (calls explorer))
    (get_map_kwargs_of
       (Some (if decide (P = MISCELLANEOUS) then L else P +:+ "_" +:+ L))
       None) = inr url →
  get_web_map wms_getmap (Some P) (Some L) explorer
  = (inr (formulate_url_template GLOBAL_BOUNDS url, Some L),
     add_call
       (WmsGetMap
          (get_map_kwargs_of
             (Some (if decide (P = MISCELLANEOUS) then L else P +:+ "_" +:+ L))
             None))
       explorer).
Proof.
  intros HP HL Hurl.
  assert (get_layer explorer (Some P) (Some L)
          = Some (if decide (P = MISCELLANEOUS) then L else P +:+ "_" +:+ L))
    as Hlayer.
  { unfold get_layer, py_or.
    destruct (decide (P = EmptyString)); [done|].
    destruct (decide (L = EmptyString)); [done|].
    destruct (decide (P = MISCELLANEOUS)) as [->|Hne].
    - by rewrite decide_True.
    - by rewrite decide_False by congruence. }
  unfold get_web_map, get_url_template, try_except, calling, get, ret, bind.
  rewrite Hlayer, Hurl. reflexivity.
Qed.

Lemma get_web_map_request_witness :
  get_web_map timeless_getmap (Some "Miscellaneous") (Some "Water Bodies")
    (demo_explorer "MODIS" "Terra_Aerosol")
  = (inr ("https://gibs.example/wms.cgi?SERVICE=WMS&bbox={XMIN}%2C{YMIN}%2C{XMAX}%2C{YMAX}&width=256",
          Some "Water Bodies"),
     add_call
       (WmsGetMap (get_map_kwargs_of (Some "Water Bodies") None))
       (demo_explorer "MODIS" "Terra_Aerosol")).
Proof.
  exact (get_web_map_request timeless_getmap
           (demo_explorer "MODIS" "Terra_Aerosol") "Miscellaneous"
           "Water Bodies" _ ltac:(done) ltac:(done) eq_refl).
Defined.

(** *** One handler after another *)

Section Sequences.

Variable react : list string → option string → option string.
Variable wms_getmap : nat → GetMapKwargs → exn + string.
Variable pd_Timedelta : string → exn + Z.
Variable pd_to_datetime : string → exn + Z.
Variable pd_date_range_alias : Z → Z → string → exn + list Z.
Variable strftime : string → Z → string.

Abbreviation update_time :=
  (update_time react pd_Timedelta pd_to_datetime pd_date_range_alias strftime).

Lemma update_web_map_first_request (self : State) (r : exn + string * string)
    (self' : State) :
  update_web_map wms_getmap self = (r, self') →
  ∃ rest,
    calls self' = calls self ++
      WmsGetMap
        (get_map_kwargs_of (get_layer self None None)
           (if decide (value (time_slider self) = Some "N/A") then None
            else value (time_slider self))) :: rest ∧
    (rest = [] ∨
     rest = [WmsGetMap
               (pop_time
                  (get_map_kwargs_of (get_layer self None None)
                     (if decide (value (time_slider self) = Some "N/A")
                      then None else value (time_slider self))))]).
Proof.
  unfold update_web_map, try_finally, get_url_template, try_except, calling,
    modify, raise, get, ret, bind.
  intros H. repeat case_match; simplify_eq; cbn [calls set_loading add_call
    set_image_pane]; rewrite <- ?app_assoc; eexists; (split; [reflexivity|]);
    auto.
Qed.

(** X21: for a layer without a temporal extent, [update_time] completes
    and the render that follows asks the service for that layer with the time
    the slider holds after its options were replaced by ["N/A"]: without a
    time instant when that value is the sentinel, which is never sent, and
    with the value the widget kept otherwise.  A retry, if any, is the same
    request without its [time] key. *)
Theorem render_without_time_after_no_extent (self : State)
    (product_layer : option string) (layer : string) (meta : LayerMeta) :
  get_layer self None None = Some layer →
  wms_contents self !! layer = Some meta →
  timepositions meta = None ∨ timepositions meta = Some [] →
  ∃ self1 time,
    update_time product_layer self = (inr tt, self1) ∧
    time = (if decide (react ["N/A"] (value (time_slider self)) = Some "N/A")
            then None else react ["N/A"] (value (time_slider self))) ∧
    time ≠ Some "N/A" ∧
    (value (time_slider self1) = Some "N/A" → time = None) ∧
    ∀ r self2, update_web_map wms_getmap self1 = (r, self2) →
      ∃ rest,
        calls self2 = calls self1 ++
          WmsGetMap (get_map_kwargs_of (Some layer) time) :: rest ∧
        (rest = [] ∨
         rest = [WmsGetMap (pop_time (get_map_kwargs_of (Some layer) time))]).
Proof.
  intros Hlayer Hmeta Hnone.
  exists (add_call TriggerValueThrottled
            (set_time_slider
               (MkSelector ["N/A"] (react ["N/A"] (value (time_slider self))))
               self)).
  eexists. split; [|split; [reflexivity|split; [|split]]].
  - unfold update_time, Explorer.update_time, refresh_layer, modify, get, bind.
    rewrite Hlayer. simpl. rewrite Hmeta.
    destruct Hnone as [-> | ->]; reflexivity.
  - by case_decide.
  - cbn [time_slider add_call set_time_slider value]. intros ->.
    by rewrite decide_True.
  - intros r self2 H.
    apply update_web_map_first_request in H as (rest & Hc & Hrest).
    cbn [time_slider add_call set_time_slider value] in Hc, Hrest.
    change (get_layer (add_call _ (set_time_slider _ self)) None None)
      with (get_layer self None None) in Hc, Hrest.
    rewrite Hlayer in Hc, Hrest. by exists rest.
Qed.

(** X22: for a layer whose descriptor gives a positive period and a start
    not after its end, [update_time] completes and the render that follows
    asks the service for that layer at the first time step, the formatted
    start of the extent. *)
Theorem render_at_first_step_after_extent (self : State)
    (product_layer : option string) (layer : string) (meta : LayerMeta)
    (descriptor : string) (more : list string) (ini end_ step : string)
    (start stop td : Z) :
  get_layer self None None = Some layer →
  wms_contents self !! layer = Some meta →
  timepositions meta = Some (descriptor :: more) →
  split "/" descriptor = [ini; end_; step] →
  pd_Timedelta step = inr td →
  pd_to_datetime ini = inr start →
  pd_to_datetime end_ = inr stop →
  (0 < td)%Z →
  (start ≤ stop)%Z →
  strftime TIME_FORMAT start ≠ "N/A" →
  ∃ self1,
    update_time product_layer self = (inr tt, self1) ∧
    ∀ r self2, update_web_map wms_getmap self1 = (r, self2) →
      ∃ rest,
        calls self2 = calls self1 ++
          WmsGetMap (get_map_kwargs_of (Some layer) (Some (strftime TIME_FORMAT start)))
          :: rest.
Proof.
  intros Hlayer Hmeta Htp Hsplit Htd Hini Hend Hpos Hle Hfmt.
  destruct (date_range_steps_cons start stop td Hpos Hle) as [rest Hrest].
  exists (add_call TriggerValueThrottled
            (set_time_slider
               (MkSelector (strftime TIME_FORMAT start :: (strftime TIME_FORMAT <$> rest))
                  (Some (strftime TIME_FORMAT start)))
               (add_call (PdDateRange ini end_ (FreqDelta td))
                  (add_call (PdTimedelta step) self)))).
  split.
  - rewrite (update_time_descriptor react pd_Timedelta pd_to_datetime
               pd_date_range_alias strftime self product_layer layer meta
               descriptor more ini end_ step) by done.
    rewrite Htd. unfold run_date_range, pd_date_range.
    rewrite Hini, Hend, Hrest. reflexivity.
  - intros r self2 H.
    apply update_web_map_first_request in H as (rest' & Hc & _).
    cbn [time_slider add_call set_time_slider value] in Hc.
    rewrite decide_False in Hc by congruence.
    change (get_layer (add_call _ (set_time_slider _ (add_call _ (add_call _ self))))
              None None)
      with (get_layer self None None) in Hc.
    rewrite Hlayer in Hc. by exists rest'.
Qed.


End Sequences.

(** *** The laws on the example explorer *)

Abbreviation aerosol := (demo_explorer "MODIS" "Terra_Aerosol").
Abbreviation aerosol_time := (demo_update_time None aerosol).
Abbreviation aerosol_template :=
  (get_url_template timeless_getmap (Some "MODIS_Terra_Aerosol")
     (Some "2000-01-02T00:00:00Z") aerosol).
Abbreviation aerosol_map := (update_web_map timeless_getmap aerosol).

Lemma update_time_effects_witness :
  wms_contents aerosol_time.2 = wms_contents aerosol ∧
  products_layers aerosol_time.2 = products_layers aerosol ∧
  product_select aerosol_time.2 = product_select aerosol ∧
  layer_select aerosol_time.2 = layer_select aerosol ∧
  image_pane aerosol_time.2 = image_pane aerosol ∧
  loading aerosol_time.2 = loading aerosol ∧
  ∃ new,
    calls aerosol_time.2 = calls aerosol ++ new ∧
    (aerosol_time.1 = inr tt → last new = Some TriggerValueThrottled) ∧
    (∀ i, new !! i = Some TriggerValueThrottled →
          aerosol_time.1 = inr tt ∧ S i = length new) ∧
    (∀ e, aerosol_time.1 = inl e →
          time_slider aerosol_time.2 = time_slider aerosol).
Proof.
  exact (update_time_effects panel_react day_Timedelta three_days_to_datetime
           ends_date_range_alias three_days_strftime aerosol None
           aerosol_time.1 aerosol_time.2 (surjective_pairing _)).
Defined.

Lemma update_time_slider_outcomes_witness :
  (time_slider aerosol_time.2 = time_slider aerosol ∨
   time_slider aerosol_time.2
   = MkSelector ["N/A"] (panel_react ["N/A"] (value (time_slider aerosol))) ∨
   ∃ first rest,
     time_slider aerosol_time.2 = MkSelector (first :: rest) (Some first)) ∧
  (options (time_slider aerosol) ≠ [] →
   options (time_slider aerosol_time.2) ≠ []).
Proof.
  exact (update_time_slider_outcomes panel_react day_Timedelta
           three_days_to_datetime ends_date_range_alias three_days_strftime
           aerosol None aerosol_time.1 aerosol_time.2 (surjective_pairing _)).
Defined.

(** An explorer over one layer whose time descriptor is a single instant,
    not a start/end/period triple. *)
Definition instant_explorer : State :=
  MkState
    {[ "GOES_Snapshot" :=
         MkLayerMeta "Snapshot" (Some ["2000-01-01T00:00:00Z"]) None ]}
    (build_products_layers ["GOES_Snapshot"])
    (MkSelector (product_options (build_products_layers ["GOES_Snapshot"]))
       (Some "GOES"))
    (MkSelector ["Snapshot"] (Some "Snapshot"))
    (MkSelector ["N/A"] (Some "N/A"))
    None false [].

(** A product the selector offers and one it does not. *)
Lemma update_layers_offered_witness :
  (∃ bucket,
     products_layers aerosol !! "GPW" = Some bucket ∧
     update_layers panel_react "GPW" aerosol =
       (inr tt,
        set_layer_select
          (MkSelector (sorted bucket)
             (panel_react (sorted bucket) (value (layer_select aerosol))))
          aerosol)) ∧
  update_layers panel_react "NOAA" aerosol
  = (inl (KeyError (Some "NOAA")), aerosol).
Proof.
  split.
  - apply (proj1 (update_layers_offered panel_react aerosol "GPW")).
    apply (bool_decide_unpack _). by vm_compute.
  - apply (proj2 (update_layers_offered panel_react aerosol "NOAA")).
    apply (bool_decide_unpack _). by vm_compute.
Defined.

(** A selection that names no layer of the capabilities, and a layer whose
    descriptor has no slash. *)
Lemma update_time_fails_early_witness :
  demo_update_time None (demo_explorer "MODIS" "Terra_Ozone")
  = (inl (KeyError (Some "MODIS_Terra_Ozone")),
     demo_explorer "MODIS" "Terra_Ozone") ∧
  ∃ msg,
    demo_update_time None instant_explorer
    = (inl (ValueError msg), instant_explorer).
Proof.
  split.
  - apply (proj1 (update_time_fails_early panel_react day_Timedelta
                    three_days_to_datetime ends_date_range_alias
                    three_days_strftime (demo_explorer "MODIS" "Terra_Ozone")
                    None)).
    by vm_compute.
  - apply (proj2 (update_time_fails_early panel_react day_Timedelta
                    three_days_to_datetime ends_date_range_alias
                    three_days_strftime instant_explorer None)
             "GOES_Snapshot"
             (MkLayerMeta "Snapshot" (Some ["2000-01-01T00:00:00Z"]) None)
             "2000-01-01T00:00:00Z" []).
    + reflexivity.
    + by vm_compute.
    + reflexivity.
    + by vm_compute.
Defined.

(** The product has just been switched to "Miscellaneous", which has no
    layer in the example catalog. *)
Lemma update_time_after_empty_product_witness :
  ∃ self',
    update_layers panel_react MISCELLANEOUS
      (demo_explorer "Miscellaneous" "Terra_Aerosol") = (inr tt, self') ∧
    layer_select self' = MkSelector [] None ∧
    demo_update_time None self' = (inl (KeyError None), self').
Proof.
  apply (update_time_after_empty_product panel_react day_Timedelta
           three_days_to_datetime ends_date_range_alias three_days_strftime
           (demo_explorer "Miscellaneous" "Terra_Aerosol") demo_layers
           MISCELLANEOUS None).
  - reflexivity.
  - reflexivity.
  - by vm_compute.
  - reflexivity.
Defined.

Lemma get_url_template_effects_witness :
  wms_contents aerosol_template.2 = wms_contents aerosol ∧
  products_layers aerosol_template.2 = products_layers aerosol ∧
  product_select aerosol_template.2 = product_select aerosol ∧
  layer_select aerosol_template.2 = layer_select aerosol ∧
  time_slider aerosol_template.2 = time_slider aerosol ∧
  image_pane aerosol_template.2 = image_pane aerosol ∧
  loading aerosol_template.2 = loading aerosol ∧
  ((∃ url,
      timeless_getmap (length (calls aerosol))
        (get_map_kwargs_of (Some "MODIS_Terra_Aerosol")
           (Some "2000-01-02T00:00:00Z")) = inr url ∧
      aerosol_template.1 = inr (formulate_url_template GLOBAL_BOUNDS url) ∧
      calls aerosol_template.2 = calls aerosol ++
        [WmsGetMap (get_map_kwargs_of (Some "MODIS_Terra_Aerosol")
                      (Some "2000-01-02T00:00:00Z"))]) ∨
   (∃ e,
      timeless_getmap (length (calls aerosol))
        (get_map_kwargs_of (Some "MODIS_Terra_Aerosol")
           (Some "2000-01-02T00:00:00Z")) = inl e ∧
      calls aerosol_template.2 = calls aerosol ++
        [WmsGetMap (get_map_kwargs_of (Some "MODIS_Terra_Aerosol")
                      (Some "2000-01-02T00:00:00Z"));
         WmsGetMap (pop_time (get_map_kwargs_of (Some "MODIS_Terra_Aerosol")
                                (Some "2000-01-02T00:00:00Z")))])) ∧
  (∀ t h, aerosol_template.1 = inr t →
          occ (Template.value GLOBAL_BOUNDS h) t = 0).
Proof.
  exact (get_url_template_effects timeless_getmap aerosol
           (Some "MODIS_Terra_Aerosol") (Some "2000-01-02T00:00:00Z")
           aerosol_template.1 aerosol_template.2 (surjective_pairing _)).
Defined.

Lemma update_web_map_effects_witness :
  loading aerosol_map.2 = false ∧
  wms_contents aerosol_map.2 = wms_contents aerosol ∧
  products_layers aerosol_map.2 = products_layers aerosol ∧
  product_select aerosol_map.2 = product_select aerosol ∧
  layer_select aerosol_map.2 = layer_select aerosol ∧
  time_slider aerosol_map.2 = time_slider aerosol ∧
  (∀ e, aerosol_map.1 = inl e → image_pane aerosol_map.2 = image_pane aerosol) ∧
  ∃ new,
    calls aerosol_map.2 = calls aerosol ++ new ∧
    1 ≤ length new ≤ 2 ∧
    ∀ c, c ∈ new →
      ∃ kw, c = WmsGetMap kw ∧
            kw_layers kw = [get_layer aerosol None None] ∧
            kw_time kw ≠ Some (Some "N/A").
Proof.
  exact (update_web_map_effects timeless_getmap aerosol
           aerosol_map.1 aerosol_map.2 (surjective_pairing _)).
Defined.

(** The slider shows "N/A": the request goes out with [time=None]. *)
Lemma update_web_map_success_witness :
  ∃ self',
    update_web_map timeless_getmap aerosol
    = (inr (formulate_url_template GLOBAL_BOUNDS
              "https://gibs.example/wms.cgi?SERVICE=WMS&bbox=-20037507.5394%2C1638517.4448%2C20037260.9187%2C7714669.3946&width=256",
            "Aerosol"), self') ∧
    image_pane self' = None ∧
    loading self' = false ∧
    calls self' = calls aerosol ++
      [WmsGetMap (get_map_kwargs_of (Some "MODIS_Terra_Aerosol") None)].
Proof.
  exact (update_web_map_success timeless_getmap aerosol "MODIS_Terra_Aerosol"
           "https://gibs.example/wms.cgi?SERVICE=WMS&bbox=-20037507.5394%2C1638517.4448%2C20037260.9187%2C7714669.3946&width=256"
           (MkLayerMeta "Aerosol"
              (Some ["2000-01-01T00:00:00Z/2000-01-03T00:00:00Z/P1D"]) None)
           eq_refl eq_refl eq_refl).
Defined.

(** A layer without temporal extent, selected while the slider still
    holds a timestamp of the previous layer, then its render. *)
Lemma render_without_time_after_no_extent_witness :
  ∃ self1 time,
    demo_update_time None
      (set_time_slider (MkSelector ["2000-01-01T00:00:00Z"]
                          (Some "2000-01-01T00:00:00Z"))
         (demo_explorer "GPW" "Population_Density_2000"))
    = (inr tt, self1) ∧
    time = None ∧
    time ≠ Some "N/A" ∧
    (value (time_slider self1) = Some "N/A" → time = None) ∧
    ∀ r self2, update_web_map timeless_getmap self1 = (r, self2) →
      ∃ rest,
        calls self2 = calls self1 ++
          WmsGetMap
            (get_map_kwargs_of (Some "GPW_Population_Density_2000") time)
          :: rest ∧
        (rest = [] ∨
         rest = [WmsGetMap
                   (pop_time
                      (get_map_kwargs_of
                         (Some "GPW_Population_Density_2000") time))]).
Proof.
  exact (render_without_time_after_no_extent panel_react timeless_getmap
           day_Timedelta three_days_to_datetime ends_date_range_alias
           three_days_strftime
           (set_time_slider (MkSelector ["2000-01-01T00:00:00Z"]
                               (Some "2000-01-01T00:00:00Z"))
              (demo_explorer "GPW" "Population_Density_2000"))
           None "GPW_Population_Density_2000"
           (MkLayerMeta "Population Density 2000" None None)
           eq_refl eq_refl (or_introl eq_refl)).
Defined.

(** The same with a widget that keeps its value: the timestamp of the
    previous layer is what the render asks for. *)
Example render_with_stale_time :
  calls
    (update_web_map timeless_getmap
       (update_time keeping_react day_Timedelta three_days_to_datetime
          ends_date_range_alias three_days_strftime None
          (set_time_slider (MkSelector ["2000-01-01T00:00:00Z"]
                              (Some "2000-01-01T00:00:00Z"))
             (demo_explorer "GPW" "Population_Density_2000"))).2).2
  = [TriggerValueThrottled;
     WmsGetMap (get_map_kwargs_of (Some "GPW_Population_Density_2000")
                  (Some "2000-01-01T00:00:00Z"));
     WmsGetMap (pop_time
                  (get_map_kwargs_of (Some "GPW_Population_Density_2000")
                     (Some "2000-01-01T00:00:00Z")))].
Proof. reflexivity. Qed.

(** A layer with a three-day extent, then its render. *)
Lemma render_at_first_step_after_extent_witness :
  ∃ self1,
    demo_update_time None aerosol = (inr tt, self1) ∧
    ∀ r self2, update_web_map timeless_getmap self1 = (r, self2) →
      ∃ rest,
        calls self2 = calls self1 ++
          WmsGetMap
            (get_map_kwargs_of (Some "MODIS_Terra_Aerosol")
               (Some "2000-01-01T00:00:00Z"))
          :: rest.
Proof.
  apply (render_at_first_step_after_extent panel_react timeless_getmap
           day_Timedelta three_days_to_datetime ends_date_range_alias
           three_days_strftime aerosol None "MODIS_Terra_Aerosol"
           (MkLayerMeta "Aerosol"
              (Some ["2000-01-01T00:00:00Z/2000-01-03T00:00:00Z/P1D"]) None)
           "2000-01-01T00:00:00Z/2000-01-03T00:00:00Z/P1D" []
           "2000-01-01T00:00:00Z" "2000-01-03T00:00:00Z" "P1D"
           946684800000000000%Z 946857600000000000%Z 86400000000000%Z).
  - reflexivity.
  - reflexivity.
  - reflexivity.
  - reflexivity.
  - reflexivity.
  - reflexivity.
  - reflexivity.
  - lia.
  - lia.
  - by vm_compute.
Defined.


(** With a widget that keeps its value the old name stays selected, and
    [get_layer()] names no layer of the capabilities. *)
Example selection_stale_after_product_change :
  ∃ self',
    update_layers keeping_react "MODIS"
      (demo_explorer "MODIS" "Population_Density_2000") = (inr tt, self') ∧
    get_layer self' None None = Some "MODIS_Population_Density_2000" ∧
    wms_contents self' !! "MODIS_Population_Density_2000" = None.
Proof. eexists. split; [by vm_compute|]. split; by vm_compute. Qed.

End ExplorerLaws.

(** ** The URL helpers of [web_map_services.ipynb] *)

Module WmsUrls.
Import Template.

(** The exceptions these helpers can meet. *)
Inductive error :=
| IndexError
| KeyError (key : string)
| ServiceException (msg : string).

(** A layer of the capabilities document: its title and its styles in
    document order, each style with the "legend" entry of its dictionary
    when it has one. *)
Record Layer := MkLayer {
  layer_title : string;
  layer_styles : list (string * option string);
}.

(** The keyword arguments of the GetMap request. *)
Record GetMapArgs := MkGetMapArgs {
  arg_layers : list string;
  arg_styles : list string;
  arg_srs : string;
  arg_bbox : Bounds;
  arg_size : nat * nat;
  arg_format : string;
  arg_transparent : bool;
}.

(** The dictionary [get_wms_urls] returns. *)
Record WmsUrlsResult := MkWmsUrlsResult {
  res_wms : string;
  res_legend : string;
  res_title : string;
}.

Section Service.

(** [WebMapService(base_resource_url).contents], the layers in document
    order, and [getmap(...).geturl()] on that service. *)
Variable WebMapService : string → error + list (string * Layer).
Variable getmap : string → GetMapArgs → error + string.

(** The request both helpers make for the first layer of the document. *)
Definition first_layer_args (wms_layer : string) (meta : Layer) : GetMapArgs :=
  MkGetMapArgs [wms_layer] (layer_styles meta).*1 "EPSG:3857" GLOBAL_BOUNDS
    (256, 256) "image/png" true.

(** [get_wms_url(base_resource_url)]. *)
Definition get_wms_url (base_resource_url : string) : error + string :=
  match WebMapService base_resource_url with
  | inl e => inl e
  | inr wms_contents =>
      match wms_contents with
      | [] => inl IndexError
      | (wms_layer, meta) :: _ =>
          getmap base_resource_url (first_layer_args wms_layer meta)
      end
  end.

(** [get_wms_urls(base_resource_url)]. *)
Definition get_wms_urls (base_resource_url : string) : error + WmsUrlsResult :=
  match WebMapService base_resource_url with
  | inl e => inl e
  | inr wms_contents =>
      match wms_contents with
      | [] => inl IndexError
      | (wms_layer, meta) :: _ =>
          match getmap base_resource_url (first_layer_args wms_layer meta) with
          | inl e => inl e
          | inr wms_url =>
              match layer_styles meta with
              | [] => inl IndexError
              | (_, None) :: _ => inl (KeyError "legend")
              | (_, Some legend_url) :: _ =>
                  inr (MkWmsUrlsResult wms_url legend_url (layer_title meta))
              end
          end
      end
  end.

(** X24: [get_wms_urls] extends [get_wms_url]: it makes the same request,
    so whenever [get_wms_url] raises, [get_wms_urls] raises the same
    exception, and whenever [get_wms_urls] returns, its "wms" entry is the URL
    [get_wms_url] returns and the template made from either is the same. *)
Theorem get_wms_urls_extends_get_wms_url (base_resource_url : string) :
  (∀ e, get_wms_url base_resource_url = inl e →
        get_wms_urls base_resource_url = inl e) ∧
  (∀ d, get_wms_urls base_resource_url = inr d →
        get_wms_url base_resource_url = inr (res_wms d) ∧
        ∀ url, get_wms_url base_resource_url = inr url →
               formulate_url_template GLOBAL_BOUNDS url
               = formulate_url_template GLOBAL_BOUNDS (res_wms d)).
Proof.
  unfold get_wms_url, get_wms_urls. split.
  - intros e H. repeat case_match; by simplify_eq.
  - intros d H. repeat case_match; simplify_eq. split; [done|].
    by intros url [= ->].
Qed.

(** X25: on a capabilities document without layers both helpers raise
    [IndexError] whatever the service would answer to a request.  When
    [get_wms_url] returns a URL, [get_wms_urls] returns exactly if the first
    style of the first layer has a legend; it raises [IndexError] if that
    layer has no style and [KeyError] if its first style has no legend,
    although the request has been answered. *)
Theorem get_wms_urls_edge_cases (base_resource_url : string) :
  (WebMapService base_resource_url = inr [] →
   get_wms_url base_resource_url = inl IndexError ∧
   get_wms_urls base_resource_url = inl IndexError) ∧
  (∀ wms_layer meta rest url,
     WebMapService base_resource_url = inr ((wms_layer, meta) :: rest) →
     get_wms_url base_resource_url = inr url →
     ((∃ d, get_wms_urls base_resource_url = inr d) ↔
      ∃ name legend_url more,
        layer_styles meta = (name, Some legend_url) :: more) ∧
     (layer_styles meta = [] →
      get_wms_urls base_resource_url = inl IndexError) ∧
     (∀ name more, layer_styles meta = (name, None) :: more →
                   get_wms_urls base_resource_url = inl (KeyError "legend"))).
Proof.
  unfold get_wms_url, get_wms_urls. split.
  - by intros ->.
  - intros wms_layer meta rest url -> ->. split; [|split].
    + split.
      * intros [d H]. repeat case_match; simplify_eq. eauto.
      * intros (name & legend_url & more & ->). eauto.
    + by intros ->.
    + by intros name more ->.
Qed.

End Service.

(** *** The helpers on an example service *)

(** A service with four capabilities documents: one without layers, one
    whose first layer has no style, one whose first style has no legend and
    one whose first style has a legend. *)
Definition outlook_service (base_resource_url : string)
    : error + list (string * Layer) :=
  if decide (base_resource_url = "https://maps.example/empty") then inr []
  else if decide (base_resource_url = "https://maps.example/plain") then
    inr [("0", MkLayer "Plain" [])]
  else if decide (base_resource_url = "https://maps.example/bare") then
    inr [("0", MkLayer "Bare" [("default", None)])]
  else
    inr [("0", MkLayer "Outlook"
                 [("default", Some "https://maps.example/legend.png")]);
         ("1", MkLayer "Second" [])].

(** A service that answers every request. *)
Definition answering_getmap (base_resource_url : string) (args : GetMapArgs)
    : error + string :=
  inr (base_resource_url +:+ "?REQUEST=GetMap&bbox=-20037507.5394%2C1638517.4448%2C20037260.9187%2C7714669.3946").

Lemma get_wms_urls_extends_get_wms_url_witness :
  get_wms_urls outlook_service answering_getmap "https://maps.example/empty"
  = inl IndexError ∧
  get_wms_url outlook_service answering_getmap "https://maps.example/outlook"
  = inr "https://maps.example/outlook?REQUEST=GetMap&bbox=-20037507.5394%2C1638517.4448%2C20037260.9187%2C7714669.3946".
Proof.
  split.
  - apply (proj1 (get_wms_urls_extends_get_wms_url outlook_service
                    answering_getmap "https://maps.example/empty")).
    reflexivity.
  - apply (proj2 (get_wms_urls_extends_get_wms_url outlook_service
                    answering_getmap "https://maps.example/outlook")
             (MkWmsUrlsResult
                "https://maps.example/outlook?REQUEST=GetMap&bbox=-20037507.5394%2C1638517.4448%2C20037260.9187%2C7714669.3946"
                "https://maps.example/legend.png" "Outlook")).
    reflexivity.
Defined.

Lemma get_wms_urls_edge_cases_witness :
  (get_wms_url outlook_service answering_getmap "https://maps.example/empty"
   = inl IndexError ∧
   get_wms_urls outlook_service answering_getmap "https://maps.example/empty"
   = inl IndexError) ∧
  get_wms_urls outlook_service answering_getmap "https://maps.example/plain"
  = inl IndexError ∧
  get_wms_urls outlook_service answering_getmap "https://maps.example/bare"
  = inl (KeyError "legend") ∧
  ∃ d, get_wms_urls outlook_service answering_getmap
         "https://maps.example/outlook" = inr d.
Proof.
  split; [|split; [|split]].
  - apply (proj1 (get_wms_urls_edge_cases outlook_service answering_getmap
                    "https://maps.example/empty")).
    reflexivity.
  - apply (proj2 (get_wms_urls_edge_cases outlook_service answering_getmap
                    "https://maps.example/plain")
             "0" (MkLayer "Plain" []) [] _ eq_refl eq_refl).
    reflexivity.
  - apply (proj2 (proj2 (proj2 (get_wms_urls_edge_cases outlook_service
                                  answering_getmap "https://maps.example/bare")
             "0" (MkLayer "Bare" [("default", None)]) [] _ eq_refl eq_refl))
             "default" []).
    reflexivity.
  - apply (proj1 (proj2 (get_wms_urls_edge_cases outlook_service
                           answering_getmap "https://maps.example/outlook")
             "0"
             (MkLayer "Outlook"
                [("default", Some "https://maps.example/legend.png")])
             [("1", MkLayer "Second" [])] _ eq_refl eq_refl)).
    by exists "default", "https://maps.example/legend.png", [].
Defined.

End WmsUrls.
